(** * BookGuide (index.py): conversation state, classification and persistence

    A shallow embedding of [index.py], the command-line book adviser, and
    the proofs of the properties its specification states about it.

    Modelling choices, in one place:
    - Text is a [string]: the UTF-8 bytes of the Python [str].  [str.lower]
      is modelled on the ASCII letters, the only ones the keyword table uses.
    - A Python value that ends up in a message field or in the stored
      document is a [pyval]; dictionaries are finite maps with string keys.
    - An element of a history list is a [message]: either a [dict], or any
      other object, seen through the two observations the program makes of
      it ([hasattr(message, 'role')] and [str(message)]).
    - Exceptions are explicit: a computation returns a [result].
    - The transcript file is a piece of state of type [file], threaded by
      the [io] monad.  The [json] module is not re-implemented: a file whose
      text is the JSON encoding of [v] is [Document v], a file whose text
      the decoder rejects as malformed is [Corrupt], and the files on which
      reading fails otherwise are [Undecodable] and [Overnested].
    - The hosted model is a parameter ([generate]) of the query function.
    - [main] is run on the list of the lines the user types; what it
      prints is collected in the session state.  [str.strip] works on the
      UTF-8 bytes and removes every character that is whitespace for
      Python, the ones outside ASCII included. *)

From Stdlib Require Import ZArith Ascii.
From stdpp Require Import gmap strings list fin_maps.

Set Warnings "-register-all".

(** ** Python values, exceptions and results *)

Module Py.

(** The values that occur in message fields and in the stored document.
    [PObject cls] is an instance of a class the [json] encoder rejects
    (for example a [Content] object of the client library). *)
Inductive pyval :=
| PNone
| PBool (b : bool)
| PInt (n : Z)
| PStr (s : string)
| PList (l : list pyval)
| PDict (d : gmap string pyval)
| PObject (cls : string).

(** An element of a history list.  [MObj has_role text] is an object that
    is not a [dict]: [has_role] is [hasattr(message, 'role')] and [text]
    is [str(message)]. *)
Inductive message :=
| MDict (d : gmap string pyval)
| MObj (has_role : bool) (text : string).

Inductive exn :=
| FileNotFoundError
| JSONDecodeError
| KeyError (key : string)
| TypeError
| UnicodeDecodeError
| RecursionError.

Inductive result (A : Type) :=
| Ok (a : A)
| Raise (e : exn).
Arguments Ok {A} a.
Arguments Raise {A} e.

#[global] Instance result_ret : MRet result := @Ok.
#[global] Instance result_bind : MBind result := λ A B f r,
  match r with
  | Ok a => f a
  | Raise e => Raise e
  end.

(** [v == s] for a string literal [s]. *)
Definition is_str (v : pyval) (s : string) : bool :=
  match v with
  | PStr s' => bool_decide (s' = s)
  | _ => false
  end.

(** [d[key]] on a dictionary. *)
Definition dict_getitem (d : gmap string pyval) (key : string) : result pyval :=
  match d !! key with
  | Some v => Ok v
  | None => Raise (KeyError key)
  end.

(** [msg[key]]: an object that is not a [dict] is not subscriptable. *)
Definition getitem (msg : message) (key : string) : result pyval :=
  match msg with
  | MDict d => dict_getitem d key
  | MObj _ _ => Raise TypeError
  end.

(** [container[key] = v] with a string key: only a [dict] accepts it. *)
Definition setitem (container : pyval) (key : string) (v : pyval) : result pyval :=
  match container with
  | PDict d => Ok (PDict (<[key := v]> d))
  | _ => Raise TypeError
  end.

(** What [json.dump] accepts. *)
Fixpoint encodable (v : pyval) : bool :=
  match v with
  | PList l => forallb encodable l
  | PDict d => map_fold (λ _ x acc, encodable x && acc) true d
  | PObject _ => false
  | _ => true
  end.

(** [sep.join(items)]: every item has to be a [str]. *)
Fixpoint as_strs (items : list pyval) : result (list string) :=
  match items with
  | [] => Ok []
  | PStr s :: rest => ss ← as_strs rest; Ok (s :: ss)
  | _ :: _ => Raise TypeError
  end.

Definition str_join (sep : string) (items : list pyval) : result string :=
  ss ← as_strs items; Ok (String.concat sep ss).

(** [str.lower], on the ASCII letters. *)
Definition lower_ascii (c : ascii) : ascii :=
  let n := nat_of_ascii c in
  if Nat.leb 65 n && Nat.leb n 90 then ascii_of_nat (n + 32) else c.

Fixpoint lower (s : string) : string :=
  match s with
  | EmptyString => EmptyString
  | String c s' => String (lower_ascii c) (lower s')
  end.

(** [key in text] on strings: [key] occurs as a substring of [text]. *)
Fixpoint contains (key text : string) : bool :=
  String.prefix key text ||
  match text with
  | EmptyString => false
  | String _ text' => contains key text'
  end.

Definition nl : string := String (ascii_of_nat 10) EmptyString.

(** A multi-line literal, given line by line. *)
Definition lines (ls : list string) : string := String.concat nl ls.

End Py.
Import Py.

(** ** Prompt builder *)

Definition create_system_instructions : string :=
  lines [
    "You are BookGuide, an expert literary advisor. You provide helpful guidance about:";
    "    - Book recommendations based on interests and reading level";
    "    - Author backgrounds and writing styles";
    "    - Genre exploration and literary analysis";
    "    - Reading tips and comprehension strategies";
    "    - Library resources and book-finding help";
    "    ";
    "    Always strive to:";
    "    - Provide specific, actionable recommendations";
    "    - Include brief context about suggested books/authors";
    "    - Respect reading levels and content sensitivities";
    "    - Encourage a love of reading and literary exploration";
    "    ";
    "    If unsure about a recommendation or detail,";
    "    acknowledge uncertainty and suggest consulting a librarian";
    "    or verified book database.";
    "    ";
    "    Keep responses engaging, informative, and focused on fostering ";
    "    a positive reading experience.";
    "    ";
    "    Do not diverge from the topic of books or reading."
  ].

(** The literal [{"role": role, "parts": parts}]. *)
Definition turn (role parts : pyval) : gmap string pyval :=
  {[ "role" := role; "parts" := parts ]}.

Definition get_few_shot_examples : list message :=
  [ MDict (turn (PStr "user") (PStr "Can you recommend a good mystery book?"));
    MDict (turn (PStr "model") (PStr (lines [
      "Here are two excellent mystery recommendations:";
      "";
      "1. 'The Thursday Murder Club' by Richard Osman";
      "- A charming yet clever mystery featuring four retirees who solve cold cases";
      "- Perfect for readers who enjoy wit mixed with their mysteries";
      "- Suitable for adult readers, especially those who appreciate British humor";
      "";
      "2. 'The 7½ Deaths of Evelyn Hardcastle' by Stuart Turton";
      "- An innovative mystery with a time-loop twist";
      "- Ideal for readers who enjoy complex plots and unique storytelling";
      "- Best for experienced mystery readers";
      "";
      "Would you like more details about either of these books?" ]))) ].

(** ** Topic classifier *)

(** The [keywords] dictionary, in declaration order (the order in which
    [keywords.items()] yields its pairs). *)
Definition keywords : list (string * string) :=
  [ ("recommend", "recommendations");
    ("suggest", "recommendations");
    ("author", "author_info");
    ("write", "author_info");
    ("genre", "genre_exploration");
    ("type", "genre_exploration");
    ("understand", "comprehension");
    ("meaning", "comprehension");
    ("library", "resources");
    ("find", "resources") ].

(** The [for key, topic in keywords.items()] loop with its early return. *)
Fixpoint first_topic (items : list (string * string)) (user_input : string) : string :=
  match items with
  | [] => "general"
  | (key, topic) :: rest =>
      if contains key user_input then topic else first_topic rest user_input
  end.

Definition classify_topic (user_input : string) : string :=
  let user_input := lower user_input in
  first_topic keywords user_input.

(** The closed set of topic labels. *)
Definition topics : list string :=
  [ "recommendations"; "author_info"; "genre_exploration";
    "comprehension"; "resources"; "general" ].

(** ** Transcript store *)

(** The file [conversation_history.json]:
    - [Missing]: there is no such file;
    - [Corrupt]: its text is not JSON, and the decoder says so
      ([json.JSONDecodeError]);
    - [Undecodable]: its bytes are not text in the encoding the file is
      opened with, so that reading it raises [UnicodeDecodeError];
    - [Overnested]: its text opens more brackets than the decoder can
      follow, so that decoding it raises [RecursionError];
    - [Document v]: its text is the JSON encoding of [v]. *)
Inductive file :=
| Missing
| Corrupt
| Undecodable
| Overnested
| Document (v : pyval).

(** Computations that read and write the transcript file and may raise. *)
Definition io (A : Type) : Type := file → result A * file.

#[global] Instance io_ret : MRet io := λ A a f, (Ok a, f).
#[global] Instance io_bind : MBind io := λ A B k c f,
  match c f with
  | (Ok a, f') => k a f'
  | (Raise e, f') => (Raise e, f')
  end.

(** A result that does not touch the file. *)
Definition pure {A} (r : result A) : io A := λ f, (r, f).

(** [try: body / except classes: handler]. *)
Definition try_except {A} (body : io A) (classes : exn → bool) (handler : io A) : io A :=
  λ f, match body f with
       | (Raise e, f') => if classes e then handler f' else (Raise e, f')
       | returned => returned
       end.

(** [with open('conversation_history.json', 'r') as f: json.load(f)]. *)
Definition read_json : io pyval := λ f,
  match f with
  | Missing => (Raise FileNotFoundError, f)
  | Corrupt => (Raise JSONDecodeError, f)
  | Undecodable => (Raise UnicodeDecodeError, f)
  | Overnested => (Raise RecursionError, f)
  | Document v => (Ok v, f)
  end.

(** [with open('conversation_history.json', 'w') as f: json.dump(v, f, indent=2)].
    Opening for writing truncates the file; the encoder writes as it goes,
    so a value it rejects leaves a text that is cut short. *)
Definition write_json (v : pyval) : io unit := λ _,
  if encodable v then (Ok (), Document v) else (Raise TypeError, Corrupt).

Definition missing_or_corrupt (e : exn) : bool :=
  match e with
  | FileNotFoundError | JSONDecodeError => true
  | _ => false
  end.

Definition load_conversation_history : io pyval :=
  try_except read_json missing_or_corrupt (mret (PDict ∅)).

(** The body of the [for message in history] loop, up to the dictionary it
    appends. *)
Definition serializable_message (message : message) : result pyval :=
  match message with
  | MDict d =>
      role ← dict_getitem d "role";
      parts ← dict_getitem d "parts";
      Ok (PDict (turn role parts))
  | MObj has_role text =>
      let role := if has_role then "model" else "user" in
      let parts := text in
      Ok (PDict (turn (PStr role) (PStr parts)))
  end.

(** The loop itself: [serializable_history] grows by [append]. *)
Fixpoint serialize (history : list message) (serializable_history : list pyval)
    : result (list pyval) :=
  match history with
  | [] => Ok serializable_history
  | message :: rest =>
      m ← serializable_message message;
      serialize rest (serializable_history ++ [m])
  end.

(** The value stored under a session identifier. *)
Definition transcript (timestamp : string) (history : list pyval) : pyval :=
  PDict {[ "timestamp" := PStr timestamp; "history" := PList history ]}.

(** [now] is the reading of [datetime.now().isoformat()]. *)
Definition save_conversation (session_id : string) (history : list message)
    (now : string) : io unit :=
  conversations ← load_conversation_history;
  serializable_history ← pure (serialize history []);
  conversations ← pure (setitem conversations session_id
                          (transcript now serializable_history));
  write_json conversations.

(** ** Conversation summary *)

(** [[msg['parts'] for msg in history if msg['role'] == 'user']]. *)
Fixpoint user_parts (history : list message) : result (list pyval) :=
  match history with
  | [] => Ok []
  | msg :: rest =>
      role ← getitem msg "role";
      if is_str role "user"
      then parts ← getitem msg "parts"; questions ← user_parts rest; Ok (parts :: questions)
      else user_parts rest
  end.

Definition summarize_conversation (history : list message) : result string :=
  questions ← user_parts history;
  let questions := drop 1 questions in
  joined ← str_join ", " (take 3 questions);
  Ok ("Discussion covered: " +:+ joined +:+ "...").

(** ** Remote query *)

(** What happens inside the [try] block of [gemini_api_query]: the model
    answers with a text, or some exception [e] is raised, of which the
    handler only uses [str(e)]. *)
Inductive outcome :=
| Reply (text : string)
| Fault (description : string).

Definition acknowledgment : string :=
  "I understand my role as BookGuide. How can I help with your questions about books or reading?".

(** The history a fresh chat is started with. *)
Definition seed (topic : string) : list message :=
  let system_prompt :=
    create_system_instructions +:+ nl +:+ "Focus on " +:+ topic +:+ " aspects in your response." in
  [ MDict (turn (PStr "user") (PStr system_prompt));
    MDict (turn (PStr "model") (PStr acknowledgment)) ] ++ get_few_shot_examples.

(** Truth value of the [chat_history] argument: [None] and [[]] are false. *)
Definition truthy (chat_history : option (list message)) : bool :=
  match chat_history with
  | Some (_ :: _) => true
  | _ => false
  end.

(** The [history] argument of [model.start_chat]. *)
Definition start_history (user_input : string) (chat_history : option (list message))
    : list message :=
  if negb (truthy chat_history)
  then let topic := classify_topic user_input in seed topic
  else default [] chat_history.

Section Remote.

(** The hosted model: from the history the chat was started with and the
    next user turn, a reply or a failure. *)
Variable generate : list message → string → outcome.

(** The object by which the client library records a turn of the given
    role and text in [chat.history]. *)
Variable content : string → string → message.

(** Modelled from the spec: the chat session of the client library
    ([model.start_chat(history=...)], [chat.send_message(user_input)],
    [response.text] and [chat.history]), which is not part of the
    repository.  On success it gives the reply text and the full updated
    exchange log: the history the chat was started with, then the new user
    turn, then the new reply.  An error raised anywhere on the way is a
    [Fault]. *)
Definition send_message (history : list message) (user_input : string)
    : (string + string * list message)%type :=
  match generate history user_input with
  | Reply text =>
      inr (text, (history ++ [content "user" user_input; content "model" text])%list)
  | Fault description => inl description
  end.

Definition gemini_api_query (user_input : string) (chat_history : option (list message))
    : (string * option (list message))%type :=
  match send_message (start_history user_input chat_history) user_input with
  | inr (text, history) => (text, Some history)
  | inl e =>
      ("I apologize, but I encountered an error: " +:+ e +:+ ". Please try again.",
       chat_history)
  end.

End Remote.

(** ** Session driver *)

(** [str.strip()] removes the characters for which [str.isspace] holds.
    On the UTF-8 bytes of a text these are: the one-byte characters tab to
    carriage return, the separators 28 to 31 and the space; the two-byte
    U+0085 and U+00A0; and the three-byte U+1680, U+2000 to U+200A, U+2028,
    U+2029, U+202F, U+205F and U+3000. *)
Definition is_space (c : ascii) : bool :=
  let n := nat_of_ascii c in
  (Nat.leb 9 n && Nat.leb n 13) || (Nat.leb 28 n && Nat.leb n 32).

Definition byte (c : ascii) (n : nat) : bool := Nat.eqb (nat_of_ascii c) n.

Definition space2 (a b : ascii) : bool :=
  byte a 194 && (byte b 133 || byte b 160).

Definition space3 (a b c : ascii) : bool :=
  (byte a 225 && byte b 154 && byte c 128)
  || (byte a 226 && byte b 128
      && ((Nat.leb 128 (nat_of_ascii c) && Nat.leb (nat_of_ascii c) 138)
          || byte c 168 || byte c 169 || byte c 175))
  || (byte a 226 && byte b 129 && byte c 159)
  || (byte a 227 && byte b 128 && byte c 128).

Section Spaces.

(** What counts as a whitespace character of one, two and three bytes, in
    the order in which the bytes are met. *)
Variable one : ascii → bool.
Variable two : ascii → ascii → bool.
Variable three : ascii → ascii → ascii → bool.

(** The bytes that are left once the whitespace characters at the front
    are dropped. *)
Fixpoint drop_spaces (l : list ascii) : list ascii :=
  match l with
  | [] => []
  | a :: l1 =>
      if one a then drop_spaces l1 else
      match l1 with
      | [] => l
      | b :: l2 =>
          if two a b then drop_spaces l2 else
          match l2 with
          | [] => l
          | c :: l3 => if three a b c then drop_spaces l3 else l
          end
      end
  end.

(** The bytes are whitespace characters and nothing else. *)
Fixpoint all_spaces (l : list ascii) : bool :=
  match l with
  | [] => true
  | a :: l1 =>
      if one a then all_spaces l1 else
      match l1 with
      | [] => false
      | b :: l2 =>
          if two a b then all_spaces l2 else
          match l2 with
          | [] => false
          | c :: l3 => three a b c && all_spaces l3
          end
      end
  end.

End Spaces.

(** From the front the bytes of a character are met first to last, from
    the back last to first. *)
Abbreviation drop_front := (drop_spaces is_space space2 space3).
Abbreviation drop_back :=
  (drop_spaces is_space (λ b a, space2 a b) (λ c b a, space3 a b c)).
Abbreviation blank_front := (all_spaces is_space space2 space3).
Abbreviation blank_back :=
  (all_spaces is_space (λ b a, space2 a b) (λ c b a, space3 a b c)).

Definition lstrip (s : string) : string :=
  String.string_of_list_ascii (drop_front (String.list_ascii_of_string s)).

Definition rstrip (s : string) : string :=
  String.string_of_list_ascii
    (rev (drop_back (rev (String.list_ascii_of_string s)))).

(** [str.strip()]. *)
Definition strip (s : string) : string := rstrip (lstrip s).

(** The state of a run of [main]: the variable [chat_history], the
    transcript file, and what has been written to the terminal, one entry
    per [print] or [input] prompt. *)
Record session := Session {
  log : option (list message);
  disk : file;
  screen : list string
}.

(** How an iteration of the [while True] loop ends: with [continue] or by
    falling through, with [break], with an exception nobody catches, or
    with [input] finding no more lines. *)
Inductive status :=
| Running
| Exited
| Crashed (e : exn)
| EndOfInput.

Definition print (text : string) (s : session) : session :=
  {| log := log s; disk := disk s; screen := screen s ++ [text] |}.

Definition set_log (chat_history : option (list message)) (s : session) : session :=
  {| log := chat_history; disk := disk s; screen := screen s |}.

Definition set_disk (f : file) (s : session) : session :=
  {| log := log s; disk := f; screen := screen s |}.

Definition welcome : list string :=
  [ "📚 Welcome to BookGuide! I'm here to help with all your book-related questions.";
    "Type 'exit' to end our conversation." +:+ nl;
    "Commands: 'history' to view conversation summary, 'save' to store conversation" +:+ nl ].

Definition prompt : string :=
  nl +:+ "Your book or reading related question (Type 'exit' to end): ".

Definition farewell : string :=
  nl +:+ "Thank you for chatting with BookGuide! Happy reading! 📚".

Section Driver.

Variable generate : list message → string → outcome.
Variable content : string → string → message.

(** The reading of [datetime.now().strftime("%Y%m%d_%H%M%S")] when [main]
    starts. *)
Variable session_id : string.

(** The body of the loop after [input] has returned [line]; [now] is what
    the clock reads if this iteration saves. *)
Definition handle (line now : string) (s : session) : status * session :=
  let user_input := strip line in
  if bool_decide (lower user_input = "exit") then
    if truthy (log s) then
      match save_conversation session_id (default [] (log s)) now (disk s) with
      | (Ok _, f) => (Exited, print farewell (set_disk f s))
      | (Raise e, f) => (Crashed e, set_disk f s)
      end
    else (Exited, print farewell s)
  else if bool_decide (lower user_input = "history") then
    if truthy (log s) then
      match summarize_conversation (default [] (log s)) with
      | Ok summary => (Running, print (nl +:+ "Conversation Summary: " +:+ summary) s)
      | Raise e => (Crashed e, s)
      end
    else (Running, s)
  else if bool_decide (lower user_input = "save") then
    if truthy (log s) then
      match save_conversation session_id (default [] (log s)) now (disk s) with
      | (Ok _, f) => (Running, print (nl +:+ "Conversation saved!") (set_disk f s))
      | (Raise e, f) => (Crashed e, set_disk f s)
      end
    else (Running, s)
  else if bool_decide (user_input = "") then
    (Running, print "Please ask a book-related question!: " s)
  else
    let '(response, chat_history) :=
      gemini_api_query generate content user_input (log s) in
    (Running, print (nl +:+ "BookGuide: " +:+ response) (set_log chat_history s)).

(** The [while True] loop, on the lines the user types, each with the
    clock reading of its iteration. *)
Fixpoint loop (inputs : list (string * string)) (s : session) : status * session :=
  match inputs with
  | [] => (EndOfInput, print prompt s)
  | (line, now) :: rest =>
      match handle line now (print prompt s) with
      | (Running, s') => loop rest s'
      | stopped => stopped
      end
  end.

(** [main], started on the transcript file [f]. *)
Definition main (inputs : list (string * string)) (f : file) : status * session :=
  let chat_history := None in
  loop inputs {| log := chat_history; disk := f; screen := welcome |}.

End Driver.

(** ** Notions the statements use *)

(** [key] occurs as a substring of [text]. *)
Definition occurs_in (key text : string) : Prop :=
  ∃ before after, text = before +:+ key +:+ after.

(** The text of the file, when there is one, is JSON that encodes what
    [Document] says: a document only holds values the encoder produces. *)
Definition holds_json (f : file) : Prop :=
  match f with
  | Document v => encodable v = true
  | _ => True
  end.

(** The two shapes of exchange the store is written for: a dictionary with
    a 'role' and a 'parts' entry (of plain data, which JSON can carry), and
    an object that is not a dictionary. *)
Definition tolerated (msg : message) : Prop :=
  match msg with
  | MDict d =>
      ∃ role parts, d !! "role" = Some role ∧ d !! "parts" = Some parts
                    ∧ encodable role = true ∧ encodable parts = true
  | MObj _ _ => True
  end.

(** The role of an exchange: the 'role' entry of a dictionary; for an
    object, "model" when it has a role attribute and "user" when it has none. *)
Definition exchange_role (msg : message) : option pyval :=
  match msg with
  | MDict d => d !! "role"
  | MObj has_role _ => Some (PStr (if has_role then "model" else "user"))
  end.

(** The content of an exchange: the 'parts' entry of a dictionary; for an
    object, its text. *)
Definition exchange_parts (msg : message) : option pyval :=
  match msg with
  | MDict d => d !! "parts"
  | MObj _ text => Some (PStr text)
  end.

(** The [{role, parts}] record of an exchange. *)
Definition record_of (msg : message) : option pyval :=
  role ← exchange_role msg; parts ← exchange_parts msg; Some (PDict (turn role parts)).

(** [msg] is a dictionary-shaped exchange of the given role and content. *)
Definition is_exchange (msg : message) (role content : string) : Prop :=
  ∃ d, msg = MDict d ∧ d !! "role" = Some (PStr role) ∧ d !! "parts" = Some (PStr content).

(** ** Sample data *)

Definition sample_session : string := "20240101_120000".

(** A log with both shapes of exchange: dictionaries, an object with a role
    attribute and an object without one. *)
Definition sample_history : list message :=
  [ MDict (turn (PStr "user") (PStr "Can you recommend a mystery?"));
    MDict (turn (PStr "model") (PStr "Try 'The Thursday Murder Club'."));
    MObj true "parts { text: 'Who wrote it?' } role: 'user'";
    MObj false "Richard Osman" ].

(** A store that already holds another session. *)
Definition sample_store : gmap string pyval :=
  {[ "20231231_235959" := transcript "2023-12-31T23:59:59" [PDict (turn (PStr "user") (PStr "Hi"))] ]}.

(** A service that is down, and one that always gives the same answer. *)
Definition offline : list message → string → outcome :=
  λ _ _, Fault "503 Service Unavailable".

Definition canned : list message → string → outcome :=
  λ _ _, Reply "Try 'Gone Girl' by Gillian Flynn.".

(** A client library that records a turn as an object with a role attribute. *)
Definition content_object (role text : string) : message :=
  MObj true ("role: " +:+ role +:+ " text: " +:+ text).

(** ** Notions and sample data for the further properties *)

(** [str.upper], on the ASCII letters. *)
Definition upper_ascii (c : ascii) : ascii :=
  let n := nat_of_ascii c in
  if Nat.leb 97 n && Nat.leb n 122 then ascii_of_nat (n - 32) else c.

Fixpoint upper (s : string) : string :=
  match s with
  | EmptyString => EmptyString
  | String c s' => String (upper_ascii c) (upper s')
  end.

(** A string of whitespace characters only (possibly empty). *)
Definition blank (s : string) : bool :=
  blank_front (String.list_ascii_of_string s).

(** The first byte of a whitespace character: it never continues one. *)
Definition starter (c : ascii) : bool :=
  is_space c || byte c 194 || byte c 225 || byte c 226 || byte c 227.

(** The no-break space U+00A0, in UTF-8. *)
Definition nbsp : string := String (ascii_of_nat 194) (String (ascii_of_nat 160) "").

(** A client library that records a turn as a [{role, parts}] dictionary. *)
Definition dict_turn (role text : string) : message :=
  MDict (turn (PStr role) (PStr text)).

(** A service that turns down one particular request and answers the others. *)
Definition picky : list message → string → outcome :=
  λ _ user_input,
    if bool_decide (user_input = "Hello?") then Fault "429 Too Many Requests"
    else Reply "Try 'Gone Girl' by Gillian Flynn.".

(** The message has a [{role, parts}] record. *)
Definition normalizable (msg : message) : Prop := is_Some (record_of msg).

(** The line, once stripped and lowercased, is the given command. *)
Definition is_command (command line : string) : Prop := lower (strip line) = command.

(** The line is sent to the model: it is not blank and it is none of the
    three commands. *)
Definition is_question (line : string) : Prop :=
  strip line ≠ "" ∧ ¬ is_command "exit" line ∧ ¬ is_command "history" line
  ∧ ¬ is_command "save" line.

(** * Properties *)

(** ** Strings *)

Section Strings.

Lemma app_cons (x : ascii) (a s : string) : String x a +:+ s = String x (a +:+ s).
Proof. reflexivity. Qed.

Lemma prefix_spec (key text : string) :
  String.prefix key text = true ↔ ∃ after, text = key +:+ after.
Proof.
  revert text. induction key as [|x key IH]; intros [|y text]; simpl.
  - split; [intros _; by exists "" | done].
  - split; [intros _; by exists (String y text) | done].
  - split; [done | by intros [? ?]].
  - setoid_rewrite app_cons.
    destruct (ascii_dec x y) as [->|Hxy].
    + rewrite IH. split; intros [after H]; exists after; congruence.
    + split; [done | intros [after H]; congruence].
Qed.

Lemma contains_cons (key : string) (y : ascii) (text : string) :
  contains key (String y text) = String.prefix key (String y text) || contains key text.
Proof. reflexivity. Qed.

Lemma contains_spec (key text : string) :
  contains key text = true ↔ occurs_in key text.
Proof.
  unfold occurs_in. induction text as [|y text IH].
  - change (contains key "") with (String.prefix key "" || false).
    rewrite orb_false_r, prefix_spec. split.
    + intros [after H]. by exists "", after.
    + intros ([|? before] & after & H); [by exists after | done].
  - rewrite contains_cons, orb_true_iff, prefix_spec, IH. split.
    + intros [[after H] | (before & after & H)].
      * by exists "", after.
      * exists (String y before), after. by rewrite app_cons, H.
    + intros ([|x before] & after & H).
      * left. by exists after.
      * right. exists before, after. rewrite app_cons in H. congruence.
Qed.

Lemma contains_false (key text : string) :
  contains key text = false ↔ ¬ occurs_in key text.
Proof. rewrite <- contains_spec. by destruct (contains key text). Qed.

End Strings.

(** ** Topic classifier *)

Section Classifier.

Lemma first_topic_split items text before key topic after :
  items = (before ++ (key, topic) :: after)%list →
  contains key text = true →
  (∀ key' topic', (key', topic') ∈ before → contains key' text = false) →
  first_topic items text = topic.
Proof.
  intros -> Hkey. induction before as [|[k t] before IH]; intros Hnone; simpl.
  - by rewrite Hkey.
  - rewrite (Hnone k t) by apply list_elem_of_here. apply IH.
    intros k' t' Hin. apply (Hnone k' t'). by apply list_elem_of_further.
Qed.

Lemma first_topic_none items text :
  (∀ key topic, (key, topic) ∈ items → contains key text = false) →
  first_topic items text = "general".
Proof.
  induction items as [|[k t] items IH]; intros Hnone; simpl; [done |].
  rewrite (Hnone k t) by apply list_elem_of_here. apply IH.
  intros k' t' Hin. apply (Hnone k' t'). by apply list_elem_of_further.
Qed.

Lemma first_topic_closed text : first_topic keywords text ∈ topics.
Proof.
  unfold keywords, topics. simpl.
  repeat (match goal with |- context [if ?c then _ else _] => destruct c end);
    set_solver.
Qed.

End Classifier.

(** C3. [classify_topic] returns the topic of the first keyword, in the
    declaration order of the keyword table, that occurs as a substring of
    the lowercased input; an input with both "recommend" and "author" is
    classified "recommendations"; an input in which no keyword occurs is
    classified "general"; the result is always one of the six topics. *)
Theorem classify_topic_first_match (user_input : string) :
  (∀ before key topic after,
      keywords = (before ++ (key, topic) :: after)%list →
      occurs_in key (lower user_input) →
      (∀ key' topic', (key', topic') ∈ before → ¬ occurs_in key' (lower user_input)) →
      classify_topic user_input = topic)
  ∧ (occurs_in "recommend" (lower user_input) →
     occurs_in "author" (lower user_input) →
     classify_topic user_input = "recommendations")
  ∧ ((∀ key topic, (key, topic) ∈ keywords → ¬ occurs_in key (lower user_input)) →
     classify_topic user_input = "general")
  ∧ classify_topic user_input ∈ topics.
Proof.
  unfold classify_topic. repeat split.
  - intros before key topic after Hsplit Hkey Hnone.
    apply (first_topic_split _ _ before key topic after Hsplit).
    + by apply contains_spec.
    + intros k t Hin. apply contains_false. by apply (Hnone k t).
  - intros Hrec _. apply contains_spec in Hrec. simpl. by rewrite Hrec.
  - intros Hnone. apply first_topic_none.
    intros k t Hin. apply contains_false. by apply (Hnone k t).
  - apply first_topic_closed.
Qed.

Lemma classify_topic_first_match_witness :
  classify_topic "Which AUTHOR would you recommend?" = "recommendations"
  ∧ classify_topic "Who is the author of Dune?" = "author_info"
  ∧ classify_topic "Hello there" = "general".
Proof.
  split; [| split].
  - apply (proj1 (proj2 (classify_topic_first_match _))).
    + by exists "which author would you ", "?".
    + by exists "which ", " would you recommend?".
  - apply (proj1 (classify_topic_first_match _)
             [("recommend", "recommendations"); ("suggest", "recommendations")]
             "author" "author_info"
             (drop 3 keywords)); [reflexivity | by exists "who is the ", " of dune?" |].
    intros k t Hin. apply contains_false.
    repeat (apply elem_of_cons in Hin as [[= -> ->] | Hin]; [reflexivity |]).
    by apply elem_of_nil in Hin.
  - apply (proj1 (proj2 (proj2 (classify_topic_first_match _)))).
    intros k t Hin. apply contains_false. unfold keywords in Hin.
    repeat (apply elem_of_cons in Hin as [[= -> ->] | Hin]; [reflexivity |]).
    by apply elem_of_nil in Hin.
Defined.

(** ** Transcript store: loading *)

(** C4. On a missing file and on a file whose text the decoder rejects as
    malformed JSON, [load_conversation_history] returns the empty mapping
    and leaves the file as it is.  It is not true that it never raises:
    the handler names [FileNotFoundError] and [json.JSONDecodeError] only,
    so on a file whose bytes are not text [UnicodeDecodeError] reaches the
    caller, and on a text that is nested too deep [RecursionError] does. *)
Theorem load_raises_on_undecodable_file :
  load_conversation_history Missing = (Ok (PDict ∅), Missing)
  ∧ load_conversation_history Corrupt = (Ok (PDict ∅), Corrupt)
  ∧ load_conversation_history Undecodable = (Raise UnicodeDecodeError, Undecodable)
  ∧ load_conversation_history Overnested = (Raise RecursionError, Overnested)
  ∧ ¬ ∀ f, ∃ v, load_conversation_history f = (Ok v, f).
Proof.
  repeat split; try reflexivity.
  intros Hnever. by destruct (Hnever Undecodable) as [v [=]].
Qed.

(** ** Transcript store: saving *)

Section Encoding.

Lemma encodable_dict (d : gmap string pyval) :
  encodable (PDict d) = true ↔ map_Forall (λ _ v, encodable v = true) d.
Proof.
  change (encodable (PDict d)) with (map_fold (λ _ x acc, encodable x && acc) true d).
  apply (map_fold_weak_ind (λ r m, r = true ↔ map_Forall (λ _ v, encodable v = true) m)).
  - split; [intros _; apply map_Forall_empty | done].
  - intros k v m r Hfresh IH.
    by rewrite andb_true_iff, IH, map_Forall_insert.
Qed.

Lemma encodable_list (l : list pyval) :
  encodable (PList l) = true ↔ Forall (λ v, encodable v = true) l.
Proof.
  change (encodable (PList l)) with (forallb encodable l).
  rewrite forallb_forall, Forall_forall. by setoid_rewrite list_elem_of_In.
Qed.

Lemma encodable_turn (role parts : pyval) :
  encodable role = true → encodable parts = true →
  encodable (PDict (turn role parts)) = true.
Proof.
  intros Hrole Hparts. apply encodable_dict.
  apply map_Forall_insert_2; [done |]. by apply map_Forall_singleton.
Qed.

Lemma encodable_transcript (now : string) (records : list pyval) :
  Forall (λ v, encodable v = true) records →
  encodable (transcript now records) = true.
Proof.
  intros Hrecords. apply encodable_dict.
  apply map_Forall_insert_2; [done |].
  apply map_Forall_singleton. by apply encodable_list.
Qed.

Lemma encodable_insert (m : gmap string pyval) (key : string) (v : pyval) :
  encodable (PDict m) = true → encodable v = true →
  encodable (PDict (<[key := v]> m)) = true.
Proof.
  rewrite !encodable_dict. intros Hm Hv. by apply map_Forall_insert_2.
Qed.

End Encoding.

Section Normalization.

Lemma serializable_message_record (msg : message) (r : pyval) :
  serializable_message msg = Ok r ↔ record_of msg = Some r.
Proof.
  destruct msg as [d | has_role text]; unfold record_of; simpl.
  - unfold dict_getitem.
    destruct (d !! "role") as [role|]; simpl; [| done].
    destruct (d !! "parts") as [parts|]; simpl; [| done].
    split; congruence.
  - split; congruence.
Qed.

Lemma tolerated_record (msg : message) :
  tolerated msg → ∃ r, record_of msg = Some r ∧ encodable r = true.
Proof.
  destruct msg as [d | has_role text]; unfold record_of; simpl.
  - intros (role & parts & -> & -> & Hrole & Hparts). simpl.
    eexists; split; [done |]. by apply encodable_turn.
  - intros _. eexists; split; [done |]. by apply encodable_turn.
Qed.

(** The loop appends the record of each exchange, in order. *)
Lemma serialize_ok (history : list message) (acc records : list pyval) :
  serialize history acc = Ok records ↔
  ∃ recs, records = acc ++ recs
          ∧ Forall2 (λ msg r, record_of msg = Some r) history recs.
Proof.
  revert acc. induction history as [|msg rest IH]; intros acc; simpl.
  - split.
    + intros [= <-]. exists []. by rewrite app_nil_r.
    + intros (recs & -> & ->%Forall2_nil_inv_l). by rewrite app_nil_r.
  - destruct (serializable_message msg) as [r|e] eqn:Hmsg; simpl.
    + apply serializable_message_record in Hmsg. rewrite IH. split.
      * intros (recs & -> & Hrecs). exists (r :: recs).
        rewrite <- app_assoc. split; [done |]. by constructor.
      * intros (recs & -> & Hrecs).
        apply Forall2_cons_inv_l in Hrecs as (r' & recs' & Hr' & Hrecs & ->).
        exists recs'. rewrite <- app_assoc. simpl. split; [congruence | done].
    + split; [done |]. intros (recs & _ & Hrecs).
      apply Forall2_cons_inv_l in Hrecs as (r' & recs' & Hr' & _ & _).
      apply serializable_message_record in Hr'. congruence.
Qed.

(** It only stops early on a dictionary without 'role' or 'parts'. *)
Lemma serialize_raise (history : list message) (acc : list pyval) (e : exn) :
  serialize history acc = Raise e →
  ∃ d, MDict d ∈ history
       ∧ (e = KeyError "role" ∧ d !! "role" = None
          ∨ e = KeyError "parts" ∧ d !! "parts" = None).
Proof.
  revert acc. induction history as [|msg rest IH]; intros acc; simpl; [done |].
  destruct (serializable_message msg) as [r|e'] eqn:Hmsg; simpl.
  - intros (d & Hin & He)%IH. exists d. split; [by apply list_elem_of_further | done].
  - intros [= ->]. destruct msg as [d | has_role text]; simpl in Hmsg; [| done].
    exists d. split; [apply list_elem_of_here |].
    unfold dict_getitem in Hmsg.
    destruct (d !! "role") as [role|]; simpl in Hmsg; [| left; split; congruence].
    destruct (d !! "parts") as [parts|]; simpl in Hmsg; [done |].
    right. split; congruence.
Qed.

Lemma serialize_tolerated (history : list message) :
  Forall tolerated history →
  ∃ records, serialize history [] = Ok records
             ∧ Forall2 (λ msg r, record_of msg = Some r) history records
             ∧ Forall (λ r, encodable r = true) records.
Proof.
  intros Htol.
  assert (∃ records, Forall2 (λ msg r, record_of msg = Some r) history records
                     ∧ Forall (λ r, encodable r = true) records) as (records & H2 & Henc).
  { induction Htol as [|msg rest Hmsg _ (records & H2 & Henc)].
    - exists []. split; constructor.
    - apply tolerated_record in Hmsg as (r & Hr & Hrenc).
      exists (r :: records). split; by constructor. }
  exists records. split; [| done]. apply serialize_ok. by exists records.
Qed.

Lemma records_lookup (history : list message) (records : list pyval) :
  Forall2 (λ msg r, record_of msg = Some r) history records →
  ∀ i, records !! i = history !! i ≫= record_of.
Proof.
  intros H2 i. apply Forall2_lookup with (i := i) in H2.
  destruct H2 as [msg r Hr |]; simpl; [by rewrite Hr | done].
Qed.

End Normalization.

Section Saving.

Lemma load_mapping (f : file) (m : gmap string pyval) :
  load_conversation_history f = (Ok (PDict m), f) ↔
  (f = Missing ∨ f = Corrupt) ∧ m = ∅ ∨ f = Document (PDict m).
Proof.
  destruct f as [| | | |v]; cbv [load_conversation_history try_except read_json
                                  missing_or_corrupt mret io_ret].
  - split; [intros [= <-]; left; auto | intros [[_ ->] | [=]]; done].
  - split; [intros [= <-]; left; auto | intros [[_ ->] | [=]]; done].
  - split; [done | intros [[[[=] | [=]] _] | [=]]].
  - split; [done | intros [[[[=] | [=]] _] | [=]]].
  - split; [intros [= ->]; by right | intros [[[[=] | [=]] _] | [= ->]]; done].
Qed.

Lemma load_document (v : pyval) :
  load_conversation_history (Document v) = (Ok v, Document v).
Proof. reflexivity. Qed.

Lemma load_keeps_file (f : file) (r : result pyval) (f' : file) :
  load_conversation_history f = (r, f') → f' = f.
Proof. destruct f; intros [= _ <-]; done. Qed.

Lemma save_conversation_steps (session_id : string) (history : list message)
    (now : string) (f : file) :
  save_conversation session_id history now f =
  match load_conversation_history f with
  | (Ok conversations, f1) =>
      match serialize history [] with
      | Ok records =>
          match setitem conversations session_id (transcript now records) with
          | Ok conversations' => write_json conversations' f1
          | Raise e => (Raise e, f1)
          end
      | Raise e => (Raise e, f1)
      end
  | (Raise e, f1) => (Raise e, f1)
  end.
Proof.
  unfold save_conversation, mbind, io_bind, pure.
  destruct (load_conversation_history f) as [[conversations|e] f1]; [| done].
  destruct (serialize history []) as [records|e]; [| done].
  by destruct (setitem conversations session_id (transcript now records)).
Qed.

(** A save on a well-formed store, of a log of tolerated exchanges. *)
Lemma save_conversation_run (session_id : string) (history : list message)
    (now : string) (f : file) (m : gmap string pyval) :
  holds_json f →
  load_conversation_history f = (Ok (PDict m), f) →
  Forall tolerated history →
  ∃ records,
    Forall2 (λ msg r, record_of msg = Some r) history records
    ∧ save_conversation session_id history now f =
      (Ok (), Document (PDict (<[session_id := transcript now records]> m)))
    ∧ holds_json (Document (PDict (<[session_id := transcript now records]> m))).
Proof.
  intros Hjson Hload (records & Hser & H2 & Henc)%serialize_tolerated.
  exists records. split; [done |].
  assert (encodable (PDict (<[session_id := transcript now records]> m)) = true) as Hnew.
  { apply encodable_insert; [| by apply encodable_transcript].
    apply load_mapping in Hload as [[_ ->] | ->]; [| done].
    by apply encodable_dict, map_Forall_empty. }
  split; [| done].
  rewrite save_conversation_steps, Hload, Hser. simpl.
  unfold write_json. by rewrite Hnew.
Qed.

(** What a save that returns has done. *)
Lemma save_conversation_inv (session_id : string) (history : list message)
    (now : string) (f f' : file) :
  save_conversation session_id history now f = (Ok (), f') →
  ∃ m records,
    load_conversation_history f = (Ok (PDict m), f)
    ∧ Forall2 (λ msg r, record_of msg = Some r) history records
    ∧ f' = Document (PDict (<[session_id := transcript now records]> m)).
Proof.
  rewrite save_conversation_steps.
  destruct (load_conversation_history f) as [[conversations|e] f1] eqn:Hload; [| done].
  apply load_keeps_file in Hload as Hf1. subst f1.
  destruct (serialize history []) as [records|e] eqn:Hser; [| done].
  apply serialize_ok in Hser as (recs & Hrecs & H2). simpl in Hrecs. subst recs.
  destruct conversations as [| | | | |m|]; simpl; try done.
  unfold write_json. destruct (encodable _); [| done].
  intros [= <-]. by exists m, records.
Qed.

End Saving.

Section Records.

Lemma turn_role (role parts : pyval) : turn role parts !! "role" = Some role.
Proof. unfold turn. by rewrite lookup_insert_eq. Qed.

Lemma turn_parts (role parts : pyval) : turn role parts !! "parts" = Some parts.
Proof. unfold turn. by rewrite lookup_insert_ne, lookup_singleton_eq. Qed.

Lemma record_of_fields (msg : message) (r : pyval) :
  record_of msg = Some r →
  ∃ d, r = PDict d ∧ d !! "role" = exchange_role msg ∧ d !! "parts" = exchange_parts msg.
Proof.
  unfold record_of.
  destruct (exchange_role msg) as [role|]; simpl; [| done].
  destruct (exchange_parts msg) as [parts|]; simpl; [| done].
  intros [= <-]. exists (turn role parts).
  by rewrite turn_role, turn_parts.
Qed.

Lemma turn_dom (role parts : pyval) : dom (turn role parts) = {[ "role"; "parts" ]}.
Proof. unfold turn. by rewrite dom_insert_L, dom_singleton_L. Qed.

Lemma record_of_dict (msg : message) (r : pyval) :
  record_of msg = Some r →
  ∃ d, r = PDict d ∧ d !! "role" = exchange_role msg ∧ d !! "parts" = exchange_parts msg
       ∧ dom d = {[ "role"; "parts" ]}.
Proof.
  unfold record_of.
  destruct (exchange_role msg) as [role|]; simpl; [| done].
  destruct (exchange_parts msg) as [parts|]; simpl; [| done].
  intros [= <-]. exists (turn role parts).
  by rewrite turn_role, turn_parts, turn_dom.
Qed.

Lemma records_fields (history : list message) (records : list pyval) :
  Forall2 (λ msg r, record_of msg = Some r) history records →
  ∀ i msg, history !! i = Some msg →
    ∃ d, records !! i = Some (PDict d)
         ∧ d !! "role" = exchange_role msg
         ∧ d !! "parts" = exchange_parts msg
         ∧ dom d = {[ "role"; "parts" ]}.
Proof.
  intros H2 i msg Hmsg.
  destruct (Forall2_lookup_l _ _ _ i msg H2 Hmsg) as (r & Hr & Hrec).
  apply record_of_dict in Hrec as (d & -> & Hrole & Hparts & Hdom). by exists d.
Qed.

Lemma transcript_fields (now : string) (records : list pyval) :
  ∃ stored, transcript now records = PDict stored
            ∧ stored !! "timestamp" = Some (PStr now)
            ∧ stored !! "history" = Some (PList records)
            ∧ dom stored = {[ "timestamp"; "history" ]}.
Proof.
  unfold transcript. eexists. split; [done |].
  split; [apply lookup_insert_eq |].
  split; [by rewrite lookup_insert_ne, lookup_singleton_eq |].
  by rewrite dom_insert_L, dom_singleton_L.
Qed.


End Records.

(** C2. For a log whose exchanges are dictionaries with 'role' and 'parts'
    (of plain data) or objects that are not dictionaries, saving and then
    loading gives back, under the session identifier, a record whose
    'timestamp' is the time of the save and whose 'history' has one
    dictionary per exchange, carrying the role and the content of that
    exchange under 'role' and 'parts' and nothing else: the 'role' and
    'parts' of a dictionary; for an object its text, with the role "model"
    when it has a role attribute and "user" when it has none. *)
Theorem save_load_roundtrip (session_id : string) (history : list message)
    (now : string) (f : file) (m : gmap string pyval) :
  holds_json f →
  load_conversation_history f = (Ok (PDict m), f) →
  Forall tolerated history →
  ∃ f' m' stored saved,
    save_conversation session_id history now f = (Ok (), f')
    ∧ load_conversation_history f' = (Ok (PDict m'), f')
    ∧ m' !! session_id = Some (PDict stored)
    ∧ stored !! "timestamp" = Some (PStr now)
    ∧ stored !! "history" = Some (PList saved)
    ∧ length saved = length history
    ∧ ∀ i msg, history !! i = Some msg →
        ∃ d, saved !! i = Some (PDict d)
             ∧ d !! "role" = exchange_role msg
             ∧ d !! "parts" = exchange_parts msg
             ∧ dom d = {[ "role"; "parts" ]}.
Proof.
  intros Hjson Hload Htol.
  destruct (save_conversation_run session_id history now f m Hjson Hload Htol)
    as (records & H2 & Hsave & _).
  destruct (transcript_fields now records) as (stored & Hstored & Htime & Hhist & _).
  eexists _, _, stored, records. split; [exact Hsave |].
  split; [apply load_document |].
  split; [by rewrite lookup_insert_eq, Hstored |].
  split; [exact Htime |]. split; [exact Hhist |].
  split; [symmetry; by eapply Forall2_length |].
  by apply records_fields.
Qed.

Lemma save_load_roundtrip_witness :
  ∃ f' m' stored saved,
    save_conversation sample_session sample_history "2024-01-01T12:00:00" Missing = (Ok (), f')
    ∧ load_conversation_history f' = (Ok (PDict m'), f')
    ∧ m' !! sample_session = Some (PDict stored)
    ∧ stored !! "timestamp" = Some (PStr "2024-01-01T12:00:00")
    ∧ stored !! "history" = Some (PList saved)
    ∧ length saved = length sample_history
    ∧ ∀ i msg, sample_history !! i = Some msg →
        ∃ d, saved !! i = Some (PDict d)
             ∧ d !! "role" = exchange_role msg
             ∧ d !! "parts" = exchange_parts msg
             ∧ dom d = {[ "role"; "parts" ]}.
Proof.
  apply (save_load_roundtrip sample_session sample_history "2024-01-01T12:00:00" Missing ∅).
  - exact I.
  - reflexivity.
  - repeat constructor; eexists _, _; repeat split; reflexivity.
Defined.



(** C8, as the code has it.  The normalization of [save_conversation]
    accepts every exchange that is not a dictionary, whatever it is, and
    every dictionary that has a 'role' and a 'parts' entry; it rejects an
    exchange only when it is a dictionary without 'role' or without 'parts',
    with a [KeyError].  On a log of tolerated exchanges and a store that is
    absent, corrupt or a mapping, the save does not raise. *)
Theorem save_normalizes_tolerated_shapes (session_id : string) (history : list message)
    (now : string) (f : file) (m : gmap string pyval) :
  (∀ has_role text,
      serializable_message (MObj has_role text)
      = Ok (PDict (turn (PStr (if has_role then "model" else "user")) (PStr text))))
  ∧ (∀ e, serialize history [] = Raise e →
       ∃ d, MDict d ∈ history
            ∧ (e = KeyError "role" ∧ d !! "role" = None
               ∨ e = KeyError "parts" ∧ d !! "parts" = None))
  ∧ (holds_json f →
     load_conversation_history f = (Ok (PDict m), f) →
     Forall tolerated history →
     ∃ f', save_conversation session_id history now f = (Ok (), f')).
Proof.
  split; [by intros [] text |].
  split; [apply serialize_raise |].
  intros Hjson Hload Htol.
  destruct (save_conversation_run session_id history now f m Hjson Hload Htol)
    as (records & _ & Hsave & _).
  by eexists.
Qed.

Lemma save_normalizes_tolerated_shapes_witness :
  (∃ d, MDict d ∈ [MDict {[ "role" := PStr "user"; "content" := PStr "Hello" ]}]
        ∧ (KeyError "parts" = KeyError "role" ∧ d !! "role" = None
           ∨ KeyError "parts" = KeyError "parts" ∧ d !! "parts" = None))
  ∧ ∃ f', save_conversation sample_session sample_history "2024-01-01T12:00:00" Corrupt
          = (Ok (), f').
Proof.
  split.
  - apply (proj1 (proj2 (save_normalizes_tolerated_shapes sample_session
                           [MDict {[ "role" := PStr "user"; "content" := PStr "Hello" ]}]
                           "2024-01-01T12:00:00" Missing ∅))).
    reflexivity.
  - apply (proj2 (proj2 (save_normalizes_tolerated_shapes sample_session sample_history
                           "2024-01-01T12:00:00" Corrupt ∅))).
    + exact I.
    + reflexivity.
    + repeat constructor; eexists _, _; repeat split; reflexivity.
Defined.

(** C8, as stated, fails: a dictionary that names its content 'content'
    instead of 'parts' is outside the canonical form, and the save raises
    [KeyError] on it (before it touches the file). *)
Lemma save_rejects_dict_without_parts :
  save_conversation sample_session
    [MDict {[ "role" := PStr "user"; "content" := PStr "Hello" ]}]
    "2024-01-01T12:00:00" Missing
  = (Raise (KeyError "parts"), Missing).
Proof. reflexivity. Qed.

(** C9. The history that a save writes under the session identifier has
    one record per exchange of the log, in the order of the log: the file
    holds a mapping whose entry for the session has, under 'history', a
    list as long as the log, whose [i]-th element is a dictionary with
    exactly the keys 'role' and 'parts', holding the role and the content
    of the [i]-th exchange.  This holds of every save that returns, and a
    save of tolerated exchanges on a well-formed store does return. *)
Theorem save_keeps_one_record_per_exchange (session_id : string)
    (history : list message) (now : string) (f : file) :
  (∀ f', save_conversation session_id history now f = (Ok (), f') →
     ∃ m stored saved,
       f' = Document (PDict m)
       ∧ m !! session_id = Some (PDict stored)
       ∧ stored !! "timestamp" = Some (PStr now)
       ∧ stored !! "history" = Some (PList saved)
       ∧ dom stored = {[ "timestamp"; "history" ]}
       ∧ length saved = length history
       ∧ ∀ i msg, history !! i = Some msg →
           ∃ d, saved !! i = Some (PDict d)
                ∧ d !! "role" = exchange_role msg
                ∧ d !! "parts" = exchange_parts msg
                ∧ dom d = {[ "role"; "parts" ]})
  ∧ (∀ m, holds_json f →
       load_conversation_history f = (Ok (PDict m), f) →
       Forall tolerated history →
       ∃ f', save_conversation session_id history now f = (Ok (), f')).
Proof.
  split.
  - intros f' (m & records & _ & H2 & ->)%save_conversation_inv.
    destruct (transcript_fields now records) as (stored & Hstored & Htime & Hhist & Hdom).
    eexists _, stored, records. split; [done |].
    split; [by rewrite lookup_insert_eq, Hstored |].
    split; [exact Htime |]. split; [exact Hhist |]. split; [exact Hdom |].
    split; [symmetry; by eapply Forall2_length |].
    by apply records_fields.
  - intros m Hjson Hload Htol.
    destruct (save_conversation_run session_id history now f m Hjson Hload Htol)
      as (records & _ & Hsave & _).
    by eexists.
Qed.

Lemma save_keeps_one_record_per_exchange_witness :
  (∃ m stored saved,
     (save_conversation sample_session sample_history "2024-01-01T12:00:00"
        (Document (PDict sample_store))).2 = Document (PDict m)
     ∧ m !! sample_session = Some (PDict stored)
     ∧ stored !! "timestamp" = Some (PStr "2024-01-01T12:00:00")
     ∧ stored !! "history" = Some (PList saved)
     ∧ dom stored = {[ "timestamp"; "history" ]}
     ∧ length saved = length sample_history
     ∧ ∀ i msg, sample_history !! i = Some msg →
         ∃ d, saved !! i = Some (PDict d)
              ∧ d !! "role" = exchange_role msg
              ∧ d !! "parts" = exchange_parts msg
              ∧ dom d = {[ "role"; "parts" ]})
  ∧ ∃ f', save_conversation sample_session sample_history "2024-01-01T12:00:00"
            (Document (PDict sample_store)) = (Ok (), f').
Proof.
  split.
  - apply (proj1 (save_keeps_one_record_per_exchange sample_session sample_history
                    "2024-01-01T12:00:00" (Document (PDict sample_store)))).
    reflexivity.
  - apply (proj2 (save_keeps_one_record_per_exchange sample_session sample_history
                    "2024-01-01T12:00:00" (Document (PDict sample_store))) sample_store).
    + vm_compute. reflexivity.
    + reflexivity.
    + repeat constructor; eexists _, _; repeat split; reflexivity.
Defined.

(** ** Conversation summary *)

Section Summary.

Lemma user_parts_exchanges (history : list message) (exchanges : list (string * string)) :
  Forall2 (λ msg e, is_exchange msg e.1 e.2) history exchanges →
  user_parts history = Ok (PStr <$> (filter (λ e, e.1 = "user") exchanges).*2).
Proof.
  induction 1 as [|msg [role content] history exchanges (d & -> & Hrole & Hparts) _ IH];
    simpl; [done |].
  simpl in Hrole, Hparts. unfold dict_getitem. rewrite Hrole. simpl.
  case_bool_decide as Huser.
  - rewrite Hparts, IH. simpl. by rewrite filter_cons_True.
  - by rewrite IH, filter_cons_False.
Qed.

Lemma as_strs_fmap (ss : list string) : as_strs (PStr <$> ss) = Ok ss.
Proof.
  induction ss as [|s ss IH]; [done |].
  rewrite fmap_cons. cbn [as_strs]. by rewrite IH.
Qed.

End Summary.

(** C7, as the code has it.  For a log of dictionary-shaped exchanges
    (empty or not), [summarize_conversation] returns "Discussion covered: ",
    then the contents of the user-role exchanges without the first of them,
    cut to the first three and joined with ", ", and then the literal
    "...", which the format string appends after the joined contents. *)
Theorem summarize_conversation_spec (history : list message)
    (exchanges : list (string * string)) :
  Forall2 (λ msg e, is_exchange msg e.1 e.2) history exchanges →
  summarize_conversation history
  = Ok ("Discussion covered: "
        +:+ String.concat ", " (take 3 (drop 1 (filter (λ e, e.1 = "user") exchanges).*2))
        +:+ "...").
Proof.
  intros Hlog. unfold summarize_conversation, str_join.
  rewrite (user_parts_exchanges _ _ Hlog). simpl.
  by rewrite <- fmap_drop, <- fmap_take, as_strs_fmap.
Qed.

Lemma summarize_conversation_spec_witness :
  summarize_conversation
    [ MDict (turn (PStr "user") (PStr "You are BookGuide."));
      MDict (turn (PStr "model") (PStr "I understand."));
      MDict (turn (PStr "user") (PStr "q1"));
      MDict (turn (PStr "model") (PStr "a1"));
      MDict (turn (PStr "user") (PStr "q2"));
      MDict (turn (PStr "user") (PStr "q3"));
      MDict (turn (PStr "user") (PStr "q4")) ]
  = Ok "Discussion covered: q1, q2, q3...".
Proof.
  apply (summarize_conversation_spec _
           [ ("user", "You are BookGuide."); ("model", "I understand.");
             ("user", "q1"); ("model", "a1"); ("user", "q2"); ("user", "q3");
             ("user", "q4") ]).
  repeat constructor; eexists; repeat split; reflexivity.
Defined.

(** C7, as stated, fails: the returned string does not end with the joined
    contents, it goes on with "...". *)
Lemma summary_goes_on_after_contents :
  summarize_conversation
    [ MDict (turn (PStr "user") (PStr "You are BookGuide."));
      MDict (turn (PStr "user") (PStr "q1")) ]
  = Ok "Discussion covered: q1..."
  ∧ summarize_conversation
      [ MDict (turn (PStr "user") (PStr "You are BookGuide."));
        MDict (turn (PStr "user") (PStr "q1")) ]
    ≠ Ok ("Discussion covered: "
          +:+ String.concat ", " (take 3 (drop 1 ["You are BookGuide."; "q1"]))).
Proof. split; [reflexivity | vm_compute; discriminate]. Qed.

(** ** Remote query *)

Section Query.

Variable generate : list message → string → outcome.
Variable content : string → string → message.

Lemma gemini_api_query_fault (user_input : string) (chat_history : option (list message))
    (description : string) :
  generate (start_history user_input chat_history) user_input = Fault description →
  gemini_api_query generate content user_input chat_history
  = ("I apologize, but I encountered an error: " +:+ description +:+ ". Please try again.",
     chat_history).
Proof. unfold gemini_api_query, send_message. by intros ->. Qed.

Lemma gemini_api_query_reply (user_input : string) (chat_history : option (list message))
    (text : string) :
  generate (start_history user_input chat_history) user_input = Reply text →
  gemini_api_query generate content user_input chat_history
  = (text, Some (start_history user_input chat_history
                  ++ [content "user" user_input; content "model" text])).
Proof. unfold gemini_api_query, send_message. by intros ->. Qed.

End Query.

(** C1. When the remote call raises an error, [gemini_api_query] returns
    the session it was given, as it was given (no user turn and no reply is
    added), and an apology that contains the description of the error. *)
Theorem failed_query_keeps_session (generate : list message → string → outcome)
    (content : string → string → message) (user_input : string)
    (chat_history : option (list message)) (description : string) :
  generate (start_history user_input chat_history) user_input = Fault description →
  (gemini_api_query generate content user_input chat_history).2 = chat_history
  ∧ (gemini_api_query generate content user_input chat_history).1
    = "I apologize, but I encountered an error: " +:+ description +:+ ". Please try again."
  ∧ occurs_in description (gemini_api_query generate content user_input chat_history).1.
Proof.
  intros Hfault. rewrite (gemini_api_query_fault _ _ _ _ _ Hfault). simpl.
  repeat split. by exists "I apologize, but I encountered an error: ", ". Please try again.".
Qed.

Lemma failed_query_keeps_session_witness :
  (gemini_api_query offline content_object "Who wrote it?" (Some sample_history)).2
  = Some sample_history
  ∧ (gemini_api_query offline content_object "Who wrote it?" (Some sample_history)).1
    = "I apologize, but I encountered an error: 503 Service Unavailable. Please try again."
  ∧ occurs_in "503 Service Unavailable"
      (gemini_api_query offline content_object "Who wrote it?" (Some sample_history)).1.
Proof.
  apply (failed_query_keeps_session offline content_object "Who wrote it?"
           (Some sample_history) "503 Service Unavailable").
  reflexivity.
Defined.

(** C6. On the first question of a session (no log yet), the chat is
    started from the seed: the persona prompt with the focus on the
    classified topic ("recommendations" when the input contains
    "recommend"), the acknowledgment, and the two few-shot exchanges, four
    exchanges in all.  When the remote call succeeds, the returned history
    is the seed followed by the user turn and the reply: its length is the
    length of the seed plus 2. *)
Theorem first_question_seeds_chat (generate : list message → string → outcome)
    (content : string → string → message) (user_input text : string) :
  generate (seed (classify_topic user_input)) user_input = Reply text →
  start_history user_input None
  = [ MDict (turn (PStr "user")
               (PStr (create_system_instructions +:+ nl +:+ "Focus on "
                      +:+ classify_topic user_input +:+ " aspects in your response.")));
      MDict (turn (PStr "model") (PStr acknowledgment)) ] ++ get_few_shot_examples
  ∧ start_history user_input None = seed (classify_topic user_input)
  ∧ length get_few_shot_examples = 2
  ∧ length (seed (classify_topic user_input)) = 4
  ∧ (occurs_in "recommend" (lower user_input) →
     classify_topic user_input = "recommendations")
  ∧ ∃ history,
      gemini_api_query generate content user_input None = (text, Some history)
      ∧ history = seed (classify_topic user_input)
                  ++ [content "user" user_input; content "model" text]
      ∧ length history = length (seed (classify_topic user_input)) + 2.
Proof.
  intros Hreply. repeat split.
  - intros Hrec%contains_spec. unfold classify_topic. simpl. by rewrite Hrec.
  - eexists. split; [by apply gemini_api_query_reply |]. split; [done |].
    by rewrite length_app.
Qed.

Lemma first_question_seeds_chat_witness :
  classify_topic "Can you recommend a mystery?" = "recommendations"
  ∧ ∃ history,
      gemini_api_query canned content_object "Can you recommend a mystery?" None
      = ("Try 'Gone Girl' by Gillian Flynn.", Some history)
      ∧ length history = 4 + 2.
Proof.
  destruct (first_question_seeds_chat canned content_object
              "Can you recommend a mystery?" "Try 'Gone Girl' by Gillian Flynn."
              eq_refl)
    as (_ & _ & _ & Hseed & Htopic & history & Hquery & _ & Hlength).
  split.
  - apply Htopic. by exists "can you ", " a mystery?".
  - exists history. split; [exact Hquery |]. by rewrite Hlength, Hseed.
Defined.

(** C10. An empty log is treated as an absent one: in both cases the chat
    is started from the seed of the topic classified from the user input,
    the same request is sent, the same reply text is returned and, when the
    call succeeds, the same history.  A log that is not empty is continued
    instead. *)
Theorem empty_log_is_absent_log (generate : list message → string → outcome)
    (content : string → string → message) (user_input : string) :
  start_history user_input (Some []) = seed (classify_topic user_input)
  ∧ start_history user_input None = seed (classify_topic user_input)
  ∧ send_message generate content (start_history user_input (Some [])) user_input
    = send_message generate content (start_history user_input None) user_input
  ∧ (gemini_api_query generate content user_input (Some [])).1
    = (gemini_api_query generate content user_input None).1
  ∧ (∀ text, generate (seed (classify_topic user_input)) user_input = Reply text →
       gemini_api_query generate content user_input (Some [])
       = gemini_api_query generate content user_input None)
  ∧ (∀ msg rest, start_history user_input (Some (msg :: rest)) = msg :: rest).
Proof.
  repeat split.
  - unfold gemini_api_query, send_message.
    change (start_history user_input (Some [])) with (start_history user_input None).
    by destruct (generate _ _).
  - intros text Hreply.
    rewrite (gemini_api_query_reply generate content user_input None text Hreply).
    by rewrite (gemini_api_query_reply generate content user_input (Some []) text Hreply).
Qed.

Lemma empty_log_is_absent_log_witness :
  gemini_api_query canned content_object "Can you recommend a mystery?" (Some [])
  = gemini_api_query canned content_object "Can you recommend a mystery?" None.
Proof.
  apply (proj1 (proj2 (proj2 (proj2 (proj2
           (empty_log_is_absent_log canned content_object
              "Can you recommend a mystery?")))))
           "Try 'Gone Girl' by Gillian Flynn.").
  reflexivity.
Defined.

(** * Further properties *)

(** ** Topic classifier *)

Section ClassifierMore.

Lemma first_topic_general (items : list (string * string)) (text : string) :
  (∀ key topic, (key, topic) ∈ items → topic ≠ "general") →
  first_topic items text = "general" →
  ∀ key topic, (key, topic) ∈ items → contains key text = false.
Proof.
  induction items as [|[k t] items IH]; intros Hnames Hgeneral key topic Hin.
  - by apply elem_of_nil in Hin.
  - simpl in Hgeneral. destruct (contains k text) eqn:Hk.
    + exfalso. apply (Hnames k t); [apply list_elem_of_here | done].
    + apply elem_of_cons in Hin as [[= -> ->] | Hin]; [done |].
      apply (IH (λ k' t' H, Hnames k' t' (list_elem_of_further _ _ _ H)) Hgeneral key topic Hin).
Qed.

Lemma keywords_not_general (key topic : string) :
  (key, topic) ∈ keywords → topic ≠ "general".
Proof.
  unfold keywords. intros Hin.
  repeat (apply elem_of_cons in Hin as [[= -> ->] | Hin]; [done |]).
  by apply elem_of_nil in Hin.
Qed.

Lemma lower_app (a b : string) : lower (a +:+ b) = lower a +:+ lower b.
Proof.
  induction a as [|c a IH]; [done |].
  rewrite app_cons. simpl. by rewrite app_cons, IH.
Qed.

Lemma occurs_in_app (key text before after : string) :
  occurs_in key text → occurs_in key (before +:+ text +:+ after).
Proof.
  intros (x & y & ->). exists (before +:+ x), (y +:+ after).
  assert (∀ p q r : string, (p +:+ q) +:+ r = p +:+ q +:+ r) as Hassoc.
  { intros p q r. induction p as [|c p IHp]; [done |]. by rewrite !app_cons, IHp. }
  by rewrite !Hassoc.
Qed.

Lemma lower_ascii_idemp (c : ascii) : lower_ascii (lower_ascii c) = lower_ascii c.
Proof. by destruct c as [[] [] [] [] [] [] [] []]. Qed.

Lemma lower_upper_ascii (c : ascii) : lower_ascii (upper_ascii c) = lower_ascii c.
Proof. by destruct c as [[] [] [] [] [] [] [] []]. Qed.

Lemma lower_idemp (s : string) : lower (lower s) = lower s.
Proof. induction s as [|c s IH]; simpl; [done |]. by rewrite lower_ascii_idemp, IH. Qed.

Lemma lower_upper (s : string) : lower (upper s) = lower s.
Proof. induction s as [|c s IH]; simpl; [done |]. by rewrite lower_upper_ascii, IH. Qed.

End ClassifierMore.

(** X1. [classify_topic] answers "general" exactly when no keyword of the
    table occurs in the lowercased input. *)
Theorem classify_topic_general_iff (user_input : string) :
  classify_topic user_input = "general" ↔
  ∀ key topic, (key, topic) ∈ keywords → ¬ occurs_in key (lower user_input).
Proof.
  split.
  - intros Hgeneral key topic Hin. apply contains_false.
    by apply (first_topic_general keywords _ keywords_not_general Hgeneral key topic).
  - intros Hnone. apply first_topic_none.
    intros key topic Hin. apply contains_false. by apply (Hnone key topic).
Qed.

(** X2. The precedence of the topics: "recommendations" when "recommend"
    or "suggest" occurs; "author_info" when neither does and "author" or
    "write" occurs; then "genre_exploration" ("genre", "type"), then
    "comprehension" ("understand", "meaning"), then "resources" ("library",
    "find"), each only when no keyword of an earlier topic occurs. *)
Theorem classify_topic_precedence (user_input : string) :
  let hit key := occurs_in key (lower user_input) in
  (classify_topic user_input = "recommendations" ↔ hit "recommend" ∨ hit "suggest")
  ∧ (classify_topic user_input = "author_info" ↔
       ¬ (hit "recommend" ∨ hit "suggest") ∧ (hit "author" ∨ hit "write"))
  ∧ (classify_topic user_input = "genre_exploration" ↔
       ¬ (hit "recommend" ∨ hit "suggest" ∨ hit "author" ∨ hit "write")
       ∧ (hit "genre" ∨ hit "type"))
  ∧ (classify_topic user_input = "comprehension" ↔
       ¬ (hit "recommend" ∨ hit "suggest" ∨ hit "author" ∨ hit "write"
          ∨ hit "genre" ∨ hit "type")
       ∧ (hit "understand" ∨ hit "meaning"))
  ∧ (classify_topic user_input = "resources" ↔
       ¬ (hit "recommend" ∨ hit "suggest" ∨ hit "author" ∨ hit "write"
          ∨ hit "genre" ∨ hit "type" ∨ hit "understand" ∨ hit "meaning")
       ∧ (hit "library" ∨ hit "find")).
Proof.
  intros hit. subst hit. cbv beta.
  rewrite <- !contains_spec. unfold classify_topic, keywords. cbn [first_topic].
  destruct (contains "recommend" _); [intuition congruence |].
  destruct (contains "suggest" _); [intuition congruence |].
  destruct (contains "author" _); [intuition congruence |].
  destruct (contains "write" _); [intuition congruence |].
  destruct (contains "genre" _); [intuition congruence |].
  destruct (contains "type" _); [intuition congruence |].
  destruct (contains "understand" _); [intuition congruence |].
  destruct (contains "meaning" _); [intuition congruence |].
  destruct (contains "library" _); [intuition congruence |].
  destruct (contains "find" _); intuition congruence.
Qed.

(** X3. Text added before or after an input never turns a classified
    input into a "general" one. *)
Theorem classify_topic_extension (before user_input after : string) :
  classify_topic user_input ≠ "general" →
  classify_topic (before +:+ user_input +:+ after) ≠ "general".
Proof.
  intros Hclassified Hgeneral. apply Hclassified.
  apply classify_topic_general_iff. intros key topic Hin Hocc.
  apply (proj1 (classify_topic_general_iff _) Hgeneral key topic Hin).
  rewrite !lower_app. by apply occurs_in_app.
Qed.

Lemma classify_topic_extension_witness :
  classify_topic ("Hello! " +:+ "Who is the author?" +:+ " Thanks.") ≠ "general".
Proof.
  apply (classify_topic_extension "Hello! " "Who is the author?" " Thanks.").
  vm_compute. discriminate.
Defined.

(** X4. The classification ignores the case of the ASCII letters: a text,
    its upper-case form and its lower-case form get the same topic. *)
Theorem classify_topic_ignores_case (user_input : string) :
  classify_topic (upper user_input) = classify_topic user_input
  ∧ classify_topic (lower user_input) = classify_topic user_input.
Proof.
  unfold classify_topic. by rewrite lower_upper, lower_idemp.
Qed.

(** ** Transcript store *)

Section StoreMore.

Lemma serialize_app (pre rest : list message) (acc : list pyval) :
  serialize (pre ++ rest) acc = serialize pre acc ≫= serialize rest.
Proof.
  revert acc. induction pre as [|msg pre IH]; intros acc; simpl; [done |].
  destruct (serializable_message msg) as [r|e]; simpl; [apply IH | done].
Qed.

Lemma serialize_normalizable (history : list message) (acc : list pyval) :
  Forall normalizable history →
  ∃ records, serialize history acc = Ok (acc ++ records)
             ∧ Forall2 (λ msg r, record_of msg = Some r) history records.
Proof.
  intros Hnorm.
  assert (∃ records, Forall2 (λ msg r, record_of msg = Some r) history records)
    as [records H2].
  { induction Hnorm as [|msg rest [r Hr] _ [records H2]].
    - by exists [].
    - exists (r :: records). by constructor. }
  exists records. split; [| done]. apply serialize_ok. by exists records.
Qed.

End StoreMore.

(** X5. On a transcript file that loads, a log that has a dictionary
    without 'role', or without 'parts', after exchanges that all normalize,
    is rejected with the [KeyError] of the first missing key, and the file
    is left as it was. *)
Theorem save_rejected_log_leaves_store (session_id : string)
    (pre post : list message) (d : gmap string pyval) (key now : string) (f : file)
    (v : pyval) :
  load_conversation_history f = (Ok v, f) →
  Forall normalizable pre →
  (d !! "role" = None ∧ key = "role")
  ∨ (is_Some (d !! "role") ∧ d !! "parts" = None ∧ key = "parts") →
  save_conversation session_id (pre ++ MDict d :: post) now f = (Raise (KeyError key), f).
Proof.
  intros Hload Hpre Hmissing.
  destruct (serialize_normalizable pre [] Hpre) as (records & Hser & _).
  rewrite save_conversation_steps, Hload, serialize_app, Hser. simpl.
  unfold dict_getitem.
  destruct Hmissing as [[-> ->] | ([role ->] & -> & ->)]; reflexivity.
Qed.

Lemma save_rejected_log_leaves_store_witness :
  save_conversation sample_session
    (sample_history ++ MDict {[ "role" := PStr "user" ]} :: sample_history)
    "2024-01-01T12:00:00" (Document (PDict sample_store))
  = (Raise (KeyError "parts"), Document (PDict sample_store)).
Proof.
  apply (save_rejected_log_leaves_store sample_session sample_history sample_history
           {[ "role" := PStr "user" ]} "parts" "2024-01-01T12:00:00"
           (Document (PDict sample_store)) (PDict sample_store)).
  - reflexivity.
  - repeat constructor; by eexists.
  - right. split; [by eexists | by split].
Defined.

(** X6. When the transcript file holds valid JSON that is not an object,
    a save of a log that normalizes raises [TypeError] and leaves the file
    as it was. *)
Theorem save_on_non_mapping_document (session_id : string) (history : list message)
    (now : string) (v : pyval) :
  (∀ m, v ≠ PDict m) →
  Forall normalizable history →
  save_conversation session_id history now (Document v) = (Raise TypeError, Document v).
Proof.
  intros Hnot Hnorm.
  destruct (serialize_normalizable history [] Hnorm) as (records & Hser & _).
  rewrite save_conversation_steps, load_document, Hser.
  destruct v; try reflexivity. by destruct (Hnot d).
Qed.

Lemma save_on_non_mapping_document_witness :
  save_conversation sample_session sample_history "2024-01-01T12:00:00"
    (Document (PList []))
  = (Raise TypeError, Document (PList [])).
Proof.
  apply (save_on_non_mapping_document sample_session sample_history
           "2024-01-01T12:00:00" (PList [])).
  - intros m. discriminate.
  - repeat constructor; by eexists.
Defined.

(** X7. When a dictionary of the log holds, under 'role' or 'parts', a
    value that JSON cannot carry, the save raises [TypeError] after the
    file has been opened for writing: the file is left with a text that is
    not JSON, and the next load finds an empty mapping. *)
Theorem save_unencodable_loses_store (session_id : string) (history : list message)
    (now : string) (f : file) (m d : gmap string pyval) (role parts : pyval) :
  load_conversation_history f = (Ok (PDict m), f) →
  Forall normalizable history →
  MDict d ∈ history →
  d !! "role" = Some role → d !! "parts" = Some parts →
  encodable role = false ∨ encodable parts = false →
  save_conversation session_id history now f = (Raise TypeError, Corrupt)
  ∧ load_conversation_history Corrupt = (Ok (PDict ∅), Corrupt).
Proof.
  intros Hload Hnorm Hin Hrole Hparts Hbad. split; [| reflexivity].
  destruct (serialize_normalizable history [] Hnorm) as (records & Hser & H2).
  rewrite save_conversation_steps, Hload, Hser. simpl. unfold write_json.
  destruct (encodable (PDict (<[session_id:=transcript now records]> m))) eqn:Henc;
    [| done].
  exfalso.
  apply encodable_dict in Henc.
  pose proof (map_Forall_lookup_1 _ _ _ _ Henc (lookup_insert_eq _ _ _)) as Htr.
  simpl in Htr. apply encodable_dict in Htr.
  assert (encodable (PList records) = true) as Hrecords.
  { apply (map_Forall_lookup_1 _ _ "history" _ Htr).
    by rewrite lookup_insert_ne, lookup_singleton_eq. }
  apply encodable_list in Hrecords.
  apply list_elem_of_lookup in Hin as [i Hi].
  apply Forall2_lookup_l with (i := i) (x := MDict d) in H2 as (r & Hr & Hrec); [| done].
  unfold record_of in Hrec. simpl in Hrec. rewrite Hrole, Hparts in Hrec. simpl in Hrec.
  injection Hrec as <-.
  apply (Forall_lookup_1 _ _ _ _ Hrecords) in Hr. apply encodable_dict in Hr.
  pose proof (map_Forall_lookup_1 _ _ _ _ Hr (turn_role role parts)) as Hr1.
  pose proof (map_Forall_lookup_1 _ _ _ _ Hr (turn_parts role parts)) as Hr2.
  simpl in Hr1, Hr2. destruct Hbad; congruence.
Qed.

Lemma save_unencodable_loses_store_witness :
  save_conversation sample_session
    [MDict (turn (PStr "user") (PObject "Part"))] "2024-01-01T12:00:00"
    (Document (PDict sample_store))
  = (Raise TypeError, Corrupt)
  ∧ load_conversation_history Corrupt = (Ok (PDict ∅), Corrupt).
Proof.
  apply (save_unencodable_loses_store sample_session
           [MDict (turn (PStr "user") (PObject "Part"))] "2024-01-01T12:00:00"
           (Document (PDict sample_store)) sample_store
           (turn (PStr "user") (PObject "Part")) (PStr "user") (PObject "Part")).
  - reflexivity.
  - repeat constructor; by eexists.
  - apply list_elem_of_here.
  - reflexivity.
  - reflexivity.
  - by right.
Defined.

(** X8. Saves of two different sessions can be done in either order: the
    mapping that is loaded afterwards is the same. *)
Theorem saves_of_two_sessions_commute (id1 id2 : string) (history1 history2 : list message)
    (now1 now2 : string) (f : file) (m : gmap string pyval) :
  id1 ≠ id2 →
  holds_json f →
  load_conversation_history f = (Ok (PDict m), f) →
  Forall tolerated history1 → Forall tolerated history2 →
  ∃ f1 f12 f2 f21 stored,
    save_conversation id1 history1 now1 f = (Ok (), f1)
    ∧ save_conversation id2 history2 now2 f1 = (Ok (), f12)
    ∧ save_conversation id2 history2 now2 f = (Ok (), f2)
    ∧ save_conversation id1 history1 now1 f2 = (Ok (), f21)
    ∧ load_conversation_history f12 = (Ok (PDict stored), f12)
    ∧ load_conversation_history f21 = (Ok (PDict stored), f21).
Proof.
  intros Hne Hjson Hload Htol1 Htol2.
  destruct (save_conversation_run id1 history1 now1 f m Hjson Hload Htol1)
    as (records1 & H1 & Hsave1 & Hjson1).
  destruct (save_conversation_run id2 history2 now2 f m Hjson Hload Htol2)
    as (records2 & H2 & Hsave2 & Hjson2).
  destruct (save_conversation_run id2 history2 now2 _ _ Hjson1 (load_document _) Htol2)
    as (records2' & H2' & Hsave12 & _).
  destruct (save_conversation_run id1 history1 now1 _ _ Hjson2 (load_document _) Htol1)
    as (records1' & H1' & Hsave21 & _).
  assert (records1' = records1) as ->.
  { apply list_eq. intros i.
    by rewrite (records_lookup _ _ H1 i), (records_lookup _ _ H1' i). }
  assert (records2' = records2) as ->.
  { apply list_eq. intros i.
    by rewrite (records_lookup _ _ H2 i), (records_lookup _ _ H2' i). }
  eexists _, _, _, _, _.
  split; [exact Hsave1 |]. split; [exact Hsave12 |].
  split; [exact Hsave2 |]. split; [exact Hsave21 |].
  split; [apply load_document |].
  rewrite load_document. by rewrite (insert_insert_ne m id2 id1).
Qed.

Lemma saves_of_two_sessions_commute_witness :
  ∃ f1 f12 f2 f21 stored,
    save_conversation "a" sample_history "t1" Missing = (Ok (), f1)
    ∧ save_conversation "b" [] "t2" f1 = (Ok (), f12)
    ∧ save_conversation "b" [] "t2" Missing = (Ok (), f2)
    ∧ save_conversation "a" sample_history "t1" f2 = (Ok (), f21)
    ∧ load_conversation_history f12 = (Ok (PDict stored), f12)
    ∧ load_conversation_history f21 = (Ok (PDict stored), f21).
Proof.
  apply (saves_of_two_sessions_commute "a" "b" sample_history [] "t1" "t2" Missing ∅).
  - discriminate.
  - exact I.
  - reflexivity.
  - repeat constructor; eexists _, _; repeat split; reflexivity.
  - constructor.
Defined.

(** X9. A save on a transcript file that is absent, or whose text the
    decoder rejects as malformed JSON ([json.JSONDecodeError]), starts the
    store afresh: afterwards the file holds the saved session and nothing
    else. *)
Theorem save_on_unreadable_store (session_id : string) (history : list message)
    (now : string) (f : file) :
  f = Missing ∨ f = Corrupt →
  Forall tolerated history →
  ∃ f' stored,
    save_conversation session_id history now f = (Ok (), f')
    ∧ load_conversation_history f' = (Ok (PDict stored), f')
    ∧ dom stored = {[ session_id ]}.
Proof.
  intros Hf Htol.
  assert (holds_json f) as Hjson by (by destruct Hf as [-> | ->]).
  assert (load_conversation_history f = (Ok (PDict ∅), f)) as Hload
    by (by destruct Hf as [-> | ->]).
  destruct (save_conversation_run session_id history now f ∅ Hjson Hload Htol)
    as (records & _ & Hsave & _).
  eexists _, _. split; [exact Hsave |]. split; [apply load_document |].
  by rewrite dom_insert_L, dom_empty_L, union_empty_r_L.
Qed.

Lemma save_on_unreadable_store_witness :
  ∃ f' stored,
    save_conversation sample_session sample_history "2024-01-01T12:00:00" Corrupt
    = (Ok (), f')
    ∧ load_conversation_history f' = (Ok (PDict stored), f')
    ∧ dom stored = {[ sample_session ]}.
Proof.
  apply (save_on_unreadable_store sample_session sample_history "2024-01-01T12:00:00"
           Corrupt).
  - by right.
  - repeat constructor; eexists _, _; repeat split; reflexivity.
Defined.

(** X10. The normalization is idempotent: the records it produces are
    dictionaries with 'role' and 'parts', and normalizing those
    dictionaries gives the same records again. *)
Theorem normalization_idempotent (history : list message) (records : list pyval) :
  serialize history [] = Ok records →
  ∃ ds, records = PDict <$> ds ∧ serialize (MDict <$> ds) [] = Ok records.
Proof.
  intros (recs & Heq & H2)%serialize_ok. simpl in Heq. subst recs.
  assert (∃ ds, records = PDict <$> ds
                ∧ Forall2 (λ msg r, record_of msg = Some r) (MDict <$> ds) records)
    as (ds & -> & Hds).
  { induction H2 as [|msg r history records Hr _ (ds & -> & Hds)].
    - exists []. split; [done | constructor].
    - apply record_of_fields in Hr as Hfields. destruct Hfields as (d & -> & _ & _).
      exists (d :: ds). split; [done |]. rewrite fmap_cons. constructor; [| done].
      unfold record_of in Hr |- *.
      destruct (exchange_role msg) as [role|]; simpl in Hr; [| done].
      destruct (exchange_parts msg) as [parts|]; simpl in Hr; [| done].
      injection Hr as <-. simpl. by rewrite turn_role, turn_parts. }
  exists ds. split; [done |]. apply serialize_ok. by exists (PDict <$> ds).
Qed.

Lemma normalization_idempotent_witness :
  ∃ ds,
    [ PDict (turn (PStr "user") (PStr "Can you recommend a mystery?"));
      PDict (turn (PStr "model") (PStr "Try 'The Thursday Murder Club'."));
      PDict (turn (PStr "model") (PStr "parts { text: 'Who wrote it?' } role: 'user'"));
      PDict (turn (PStr "user") (PStr "Richard Osman")) ] = PDict <$> ds
    ∧ serialize (MDict <$> ds) []
      = Ok [ PDict (turn (PStr "user") (PStr "Can you recommend a mystery?"));
             PDict (turn (PStr "model") (PStr "Try 'The Thursday Murder Club'."));
             PDict (turn (PStr "model") (PStr "parts { text: 'Who wrote it?' } role: 'user'"));
             PDict (turn (PStr "user") (PStr "Richard Osman")) ].
Proof.
  apply (normalization_idempotent sample_history). reflexivity.
Defined.

(** ** Conversation summary *)

Section SummaryMore.

Lemma user_parts_ok (history : list message) (questions : list pyval) :
  user_parts history = Ok questions →
  Forall (λ msg, ∃ d, msg = MDict d ∧ is_Some (d !! "role")) history.
Proof.
  revert questions. induction history as [|msg rest IH]; intros questions; [constructor |].
  cbn [user_parts].
  destruct msg as [d | has_role text]; simpl; [| done].
  unfold dict_getitem. destruct (d !! "role") as [role|] eqn:Hrole; simpl; [| done].
  intros Hrest.
  assert (∃ qs, user_parts rest = Ok qs) as [qs Hqs].
  { destruct (is_str role "user").
    - destruct (d !! "parts"); simpl in Hrest; [| done].
      destruct (user_parts rest) as [qs|]; [by exists qs | done].
    - by exists questions. }
  constructor; [| by apply (IH qs)].
  exists d. by rewrite Hrole.
Qed.

Lemma summary_of_exchanges (history : list message) (exchanges : list (string * string)) :
  Forall2 (λ msg e, is_exchange msg e.1 e.2) history exchanges →
  summarize_conversation history
  = Ok ("Discussion covered: "
        +:+ String.concat ", " (take 3 (drop 1 (filter (λ e, e.1 = "user") exchanges).*2))
        +:+ "...").
Proof.
  intros Hlog. unfold summarize_conversation, str_join.
  rewrite (user_parts_exchanges _ _ Hlog). simpl.
  by rewrite <- fmap_drop, <- fmap_take, as_strs_fmap.
Qed.

End SummaryMore.

(** X11. A log that contains an object that is not a dictionary cannot be
    summarized: [summarize_conversation] raises. *)
Theorem summarize_rejects_objects (history : list message) (has_role : bool)
    (text : string) :
  MObj has_role text ∈ history →
  ∃ e, summarize_conversation history = Raise e.
Proof.
  intros Hin. unfold summarize_conversation.
  destruct (user_parts history) as [questions|e] eqn:Hparts; [| by exists e].
  apply user_parts_ok in Hparts.
  apply (proj1 (Forall_forall _ _) Hparts) in Hin as (d & [=] & _).
Qed.

Lemma summarize_rejects_objects_witness :
  ∃ e, summarize_conversation sample_history = Raise e.
Proof.
  apply (summarize_rejects_objects sample_history false "Richard Osman").
  repeat (first [apply list_elem_of_here | apply list_elem_of_further]).
Defined.

(** X12. When a log of dictionary-shaped exchanges has at most one
    user-role exchange (the persona prompt alone, or nothing), the summary
    lists nothing: it is "Discussion covered: ...". *)
Theorem summarize_without_questions (history : list message)
    (exchanges : list (string * string)) :
  Forall2 (λ msg e, is_exchange msg e.1 e.2) history exchanges →
  length (filter (λ e, e.1 = "user") exchanges) ≤ 1 →
  summarize_conversation history = Ok "Discussion covered: ...".
Proof.
  intros Hlog Hfew. rewrite (summary_of_exchanges _ _ Hlog).
  destruct (filter (λ e, e.1 = "user") exchanges) as [|e1 [|e2 rest]]; simpl in *;
    [done | done | lia].
Qed.

Lemma summarize_without_questions_witness :
  summarize_conversation
    [ MDict (turn (PStr "user") (PStr "You are BookGuide."));
      MDict (turn (PStr "model") (PStr "I understand.")) ]
  = Ok "Discussion covered: ...".
Proof.
  apply (summarize_without_questions _
           [("user", "You are BookGuide."); ("model", "I understand.")]).
  - repeat constructor; eexists; repeat split; reflexivity.
  - vm_compute. lia.
Defined.

(** X13. The summary never goes beyond the fourth user-role exchange: once
    a log of dictionary-shaped exchanges has four of them, exchanges added
    after it do not change the summary. *)
Theorem summarize_stops_at_three (history more : list message)
    (exchanges exchanges' : list (string * string)) :
  Forall2 (λ msg e, is_exchange msg e.1 e.2) history exchanges →
  Forall2 (λ msg e, is_exchange msg e.1 e.2) more exchanges' →
  4 ≤ length (filter (λ e, e.1 = "user") exchanges) →
  summarize_conversation (history ++ more) = summarize_conversation history.
Proof.
  intros Hlog Hmore Hfour.
  assert (Forall2 (λ msg e, is_exchange msg e.1 e.2) (history ++ more)
            (exchanges ++ exchanges')) as Hboth by (by apply Forall2_app).
  rewrite (summary_of_exchanges _ _ Hboth).
  rewrite (summary_of_exchanges _ _ Hlog).
  rewrite filter_app, fmap_app.
  rewrite drop_app_le by (rewrite length_fmap; lia).
  rewrite take_app_le by (rewrite length_drop, length_fmap; lia).
  done.
Qed.

Lemma summarize_stops_at_three_witness :
  summarize_conversation
    ([ dict_turn "user" "persona"; dict_turn "user" "q1"; dict_turn "user" "q2";
       dict_turn "user" "q3" ] ++ [ dict_turn "model" "a3"; dict_turn "user" "q4" ])
  = summarize_conversation
      [ dict_turn "user" "persona"; dict_turn "user" "q1"; dict_turn "user" "q2";
        dict_turn "user" "q3" ].
Proof.
  apply (summarize_stops_at_three _ _
           [("user", "persona"); ("user", "q1"); ("user", "q2"); ("user", "q3")]
           [("model", "a3"); ("user", "q4")]).
  - repeat constructor; eexists; repeat split; reflexivity.
  - repeat constructor; eexists; repeat split; reflexivity.
  - vm_compute. lia.
Defined.

(** ** Remote query *)

Section QueryMore.

Variable generate : list message → string → outcome.
Variable content : string → string → message.

Lemma is_exchange_turn (role text : string) :
  is_exchange (MDict (turn (PStr role) (PStr text))) role text.
Proof. eexists. split; [done |]. by rewrite turn_role, turn_parts. Qed.

Lemma seed_exchanges (topic : string) :
  ∃ persona answer,
    Forall2 (λ msg e, is_exchange msg e.1 e.2) (seed topic)
      [ ("user", persona); ("model", acknowledgment);
        ("user", "Can you recommend a good mystery book?"); ("model", answer) ].
Proof.
  unfold seed, get_few_shot_examples. eexists _, _.
  repeat constructor; apply is_exchange_turn.
Qed.

End QueryMore.

(** X14. With a client library that records turns as [{role, parts}]
    dictionaries, the summary of a session after its first answered
    question lists the question of the few-shot example first, as if the
    user had asked it, and then the user's question. *)
Theorem summary_lists_few_shot_example (generate : list message → string → outcome)
    (content : string → string → message) (user_input text : string) :
  (∀ role turn_text, is_exchange (content role turn_text) role turn_text) →
  generate (seed (classify_topic user_input)) user_input = Reply text →
  ∃ history,
    (gemini_api_query generate content user_input None).2 = Some history
    ∧ summarize_conversation history
      = Ok ("Discussion covered: Can you recommend a good mystery book?, "
            +:+ user_input +:+ "...").
Proof.
  intros Hcontent Hreply.
  rewrite (gemini_api_query_reply generate content user_input None text Hreply).
  eexists. split; [done |].
  change (start_history user_input None) with (seed (classify_topic user_input)).
  destruct (seed_exchanges (classify_topic user_input)) as (persona & answer & Hseed).
  assert (Forall2 (λ msg e, is_exchange msg e.1 e.2)
            [content "user" user_input; content "model" text]
            [("user", user_input); ("model", text)]) as Hnew
    by (repeat constructor; apply Hcontent).
  pose proof (Forall2_app Hseed Hnew) as Hall.
  rewrite (summary_of_exchanges _ _ Hall).
  reflexivity.
Qed.

Lemma summary_lists_few_shot_example_witness :
  ∃ history,
    (gemini_api_query canned dict_turn "Any new thrillers?" None).2 = Some history
    ∧ summarize_conversation history
      = Ok ("Discussion covered: Can you recommend a good mystery book?, "
            +:+ "Any new thrillers?" +:+ "...").
Proof.
  apply (summary_lists_few_shot_example canned dict_turn "Any new thrillers?"
           "Try 'Gone Girl' by Gillian Flynn.").
  - intros role turn_text. eexists. split; [reflexivity |]. split; reflexivity.
  - reflexivity.
Defined.

(** X15. Two answered questions in a row, from a fresh session: the log is
    the seed of the first question's topic, then the two questions with
    their replies.  The second call does not classify or seed again, and
    each answered call adds exactly two exchanges after what was there. *)
Theorem two_answered_questions (generate : list message → string → outcome)
    (content : string → string → message) (first second reply1 reply2 : string) :
  let seeded := seed (classify_topic first) in
  generate seeded first = Reply reply1 →
  generate (seeded ++ [content "user" first; content "model" reply1]) second
  = Reply reply2 →
  gemini_api_query generate content second
    (gemini_api_query generate content first None).2
  = (reply2,
     Some (seeded ++ [ content "user" first; content "model" reply1;
                       content "user" second; content "model" reply2 ])).
Proof.
  intros seeded Hfirst Hsecond.
  rewrite (gemini_api_query_reply generate content first None reply1 Hfirst).
  change (start_history first None) with seeded. cbn [snd].
  rewrite (gemini_api_query_reply generate content second
             (Some (seeded ++ [content "user" first; content "model" reply1]))
             reply2 Hsecond).
  change (start_history second
            (Some (seeded ++ [content "user" first; content "model" reply1])))
    with (seeded ++ [content "user" first; content "model" reply1]).
  by rewrite <- app_assoc.
Qed.

Lemma two_answered_questions_witness :
  gemini_api_query canned content_object "Who wrote Dune?"
    (gemini_api_query canned content_object "Can you recommend a mystery?" None).2
  = ("Try 'Gone Girl' by Gillian Flynn.",
     Some (seed "recommendations"
           ++ [ content_object "user" "Can you recommend a mystery?";
                content_object "model" "Try 'Gone Girl' by Gillian Flynn.";
                content_object "user" "Who wrote Dune?";
                content_object "model" "Try 'Gone Girl' by Gillian Flynn." ])).
Proof.
  apply (two_answered_questions canned content_object "Can you recommend a mystery?"
           "Who wrote Dune?" "Try 'Gone Girl' by Gillian Flynn."
           "Try 'Gone Girl' by Gillian Flynn."); reflexivity.
Defined.

(** X16. A question that fails leaves no trace: when the next question is
    answered, the chat is seeded with the topic of that next question, and
    the log holds the seed, that question and its reply only. *)
Theorem failed_then_answered (generate : list message → string → outcome)
    (content : string → string → message) (first second description reply : string) :
  generate (seed (classify_topic first)) first = Fault description →
  generate (seed (classify_topic second)) second = Reply reply →
  gemini_api_query generate content second
    (gemini_api_query generate content first None).2
  = (reply,
     Some (seed (classify_topic second)
           ++ [content "user" second; content "model" reply])).
Proof.
  intros Hfirst Hsecond.
  rewrite (gemini_api_query_fault generate content first None description Hfirst). simpl.
  by rewrite (gemini_api_query_reply generate content second None reply Hsecond).
Qed.

Lemma failed_then_answered_witness :
  gemini_api_query picky content_object "Who is the author of Dune?"
    (gemini_api_query picky content_object "Hello?" None).2
  = ("Try 'Gone Girl' by Gillian Flynn.",
     Some (seed "author_info"
           ++ [ content_object "user" "Who is the author of Dune?";
                content_object "model" "Try 'Gone Girl' by Gillian Flynn." ])).
Proof.
  apply (failed_then_answered picky content_object "Hello?" "Who is the author of Dune?"
           "429 Too Many Requests" "Try 'Gone Girl' by Gillian Flynn."); reflexivity.
Defined.

(** ** Session driver *)

Section StripFacts.

Section SpacesFacts.
Variable one : ascii → bool.
Variable two : ascii → ascii → bool.
Variable three : ascii → ascii → ascii → bool.

Lemma drop_spaces_blank_app (l x : list ascii) :
  all_spaces one two three l = true →
  drop_spaces one two three (l ++ x) = drop_spaces one two three x.
Proof.
  remember (length l) as n eqn:Hn. revert l Hn.
  induction (lt_wf n) as [n _ IH]. intros l -> Hall.
  destruct l as [|a l1]; [done |]. simpl in Hall |- *.
  destruct (one a). { apply (IH (length l1)); [simpl; lia | done | done]. }
  destruct l1 as [|b l2]; [done |]. simpl.
  destruct (two a b). { apply (IH (length l2)); [simpl; lia | done | done]. }
  destruct l2 as [|c l3]; [done |]. simpl.
  destruct (three a b c); [| done].
  apply (IH (length l3)); [simpl; lia | done | done].
Qed.

Lemma all_spaces_app (l x : list ascii) :
  all_spaces one two three l = true →
  all_spaces one two three (l ++ x) = all_spaces one two three x.
Proof.
  remember (length l) as n eqn:Hn. revert l Hn.
  induction (lt_wf n) as [n _ IH]. intros l -> Hall.
  destruct l as [|a l1]; [done |]. simpl in Hall |- *.
  destruct (one a). { apply (IH (length l1)); [simpl; lia | done | done]. }
  destruct l1 as [|b l2]; [done |]. simpl.
  destruct (two a b). { apply (IH (length l2)); [simpl; lia | done | done]. }
  destruct l2 as [|c l3]; [done |]. simpl.
  destruct (three a b c); [| done]. simpl in Hall |- *.
  apply (IH (length l3)); [simpl; lia | done | done].
Qed.

Lemma drop_spaces_blank (l : list ascii) :
  all_spaces one two three l = true → drop_spaces one two three l = [].
Proof.
  intros Hall. rewrite <- (app_nil_r l). by rewrite drop_spaces_blank_app.
Qed.
End SpacesFacts.

Ltac bytes_to_nat :=
  unfold space3, space2, is_space, byte in *;
  repeat match goal with
         | H : _ |- _ =>
             progress rewrite ?andb_true_iff, ?orb_true_iff, ?Nat.eqb_eq, ?Nat.leb_le in H
         end.

Ltac forget_bytes :=
  repeat match goal with
         | H : context [nat_of_ascii ?c] |- _ =>
             let n := fresh "n" in
             let Hn := fresh in
             remember (nat_of_ascii c) as n eqn:Hn; clear Hn
         end.

Ltac bytes_false :=
  apply not_true_iff_false; intros Hgoal; bytes_to_nat; forget_bytes; lia.

Lemma blank_starts (c : ascii) (l : list ascii) :
  blank_front (c :: l) = true → starter c = true.
Proof.
  unfold starter. simpl. destruct (is_space c); [done |].
  destruct l as [|b l2]; [done |].
  destruct (space2 c b) eqn:H2.
  { intros _. bytes_to_nat. rewrite !orb_true_iff, !Nat.eqb_eq. intuition. }
  destruct l2 as [|d l3]; [done |].
  intros [H3 _]%andb_true_iff. bytes_to_nat. rewrite !orb_true_iff, !Nat.eqb_eq. intuition.
Qed.

Lemma starter_second (x c : ascii) : starter c = true → space2 x c = false.
Proof. unfold starter. intros H. bytes_false. Qed.

Lemma starter_middle (x c y : ascii) : starter c = true → space3 x c y = false.
Proof. unfold starter. intros H. bytes_false. Qed.

Lemma starter_last (x y c : ascii) : starter c = true → space3 x y c = false.
Proof. unfold starter. intros H. bytes_false. Qed.

Lemma space2_second (a b : ascii) : space2 a b = true → is_space b = false.
Proof. intros H. bytes_false. Qed.

Lemma space3_last (a b c : ascii) :
  space3 a b c = true → is_space c = false ∧ space2 b c = false.
Proof. intros H. split; bytes_false. Qed.

Lemma drop_front_app_blank (l x : list ascii) :
  blank_front x = true →
  drop_front (l ++ x) = match drop_front l with [] => [] | kept => kept ++ x end.
Proof.
  intros Hx.
  remember (length l) as n eqn:Hn. revert l Hn.
  induction (lt_wf n) as [n _ IH]. intros l ->.
  destruct l as [|a l1]; [by apply drop_spaces_blank |].
  simpl. destruct (is_space a) eqn:Ha. { apply (IH (length l1)); [simpl; lia | done]. }
  destruct l1 as [|b l2].
  - simpl. destruct x as [|f0 x1]; [done |].
    apply blank_starts in Hx.
    rewrite (starter_second a f0 Hx).
    destruct x1 as [|f1 x2]; [done |]. by rewrite (starter_middle a f0 f1 Hx).
  - simpl. destruct (space2 a b). { apply (IH (length l2)); [simpl; lia | done]. }
    destruct l2 as [|c l3].
    + simpl. destruct x as [|f0 x1]; [done |].
      apply blank_starts in Hx. by rewrite (starter_last a b f0 Hx).
    + simpl. destruct (space3 a b c); [| done].
      apply (IH (length l3)); [simpl; lia | done].
Qed.

Lemma blank_back_rev (l : list ascii) :
  blank_front l = true → blank_back (rev l) = true.
Proof.
  remember (length l) as n eqn:Hn. revert l Hn.
  induction (lt_wf n) as [n _ IH]. intros l ->.
  destruct l as [|a l1]; [done |]. simpl.
  destruct (is_space a) eqn:Ha.
  { intros Hl1. rewrite all_spaces_app by (apply (IH (length l1)); [simpl; lia | done | done]).
    simpl. by rewrite Ha. }
  destruct l1 as [|b l2]; [done |]. simpl.
  destruct (space2 a b) eqn:Hab.
  { intros Hl2. rewrite <- app_assoc.
    rewrite all_spaces_app by (apply (IH (length l2)); [simpl; lia | done | done]).
    simpl. by rewrite (space2_second a b Hab), Hab. }
  destruct l2 as [|c l3]; [done |]. simpl.
  intros [Habc Hl3]%andb_true_iff. rewrite <- !app_assoc.
  rewrite all_spaces_app by (apply (IH (length l3)); [simpl; lia | done | done]).
  simpl. destruct (space3_last a b c Habc) as [-> ->]. by rewrite Habc.
Qed.

Lemma strip_bytes_padding (before l after : list ascii) :
  blank_front before = true → blank_front after = true →
  rev (drop_back (rev (drop_front (before ++ l ++ after))))
  = rev (drop_back (rev (drop_front l))).
Proof.
  intros Hbefore Hafter.
  rewrite drop_spaces_blank_app by done.
  rewrite drop_front_app_blank by done.
  destruct (drop_front l) as [|c kept]; [done |].
  rewrite rev_app_distr.
  by rewrite drop_spaces_blank_app by (by apply blank_back_rev).
Qed.

Lemma bytes_app (a b : string) :
  String.list_ascii_of_string (a +:+ b)
  = String.list_ascii_of_string a ++ String.list_ascii_of_string b.
Proof. induction a as [|c a IH]; [done |]. simpl. by rewrite IH. Qed.

Lemma strip_bytes (s : string) :
  strip s
  = String.string_of_list_ascii
      (rev (drop_back (rev (drop_front (String.list_ascii_of_string s))))).
Proof.
  unfold strip, rstrip, lstrip. by rewrite String.list_ascii_of_string_of_list_ascii.
Qed.

Lemma strip_padding (before line after : string) :
  blank before = true → blank after = true →
  strip (before +:+ line +:+ after) = strip line.
Proof.
  intros Hbefore Hafter.
  by rewrite !strip_bytes, !bytes_app, strip_bytes_padding.
Qed.

End StripFacts.

Section DriverFacts.

Variable generate : list message → string → outcome.
Variable content : string → string → message.
Variable session_id : string.


(** What an iteration does to the log and to the file when the line is
    neither [exit] nor [save]. *)
Lemma handle_keeps_disk (line now : string) (s : session) :
  ¬ is_command "exit" line → ¬ is_command "save" line →
  disk (handle generate content session_id line now s).2 = disk s.
Proof.
  unfold is_command, handle. intros Hexit Hsave.
  rewrite (bool_decide_eq_false_2 _ Hexit), (bool_decide_eq_false_2 _ Hsave).
  case_bool_decide; [| case_bool_decide].
  - destruct (truthy (log s)); [| done].
    by destruct (summarize_conversation _).
  - done.
  - by destruct (gemini_api_query _ _ _ _).
Qed.

Lemma handle_exit_stops (line now : string) (s : session) :
  is_command "exit" line → (handle generate content session_id line now s).1 ≠ Running.
Proof.
  unfold is_command, handle. intros ->. simpl.
  destruct (truthy (log s)); [| done].
  by destruct (save_conversation _ _ _ _) as [[[]|e] f].
Qed.



Lemma loop_keeps_disk (inputs : list (string * string)) (s : session) :
  Forall (λ input, ¬ is_command "exit" input.1 ∧ ¬ is_command "save" input.1) inputs →
  disk (loop generate content session_id inputs s).2 = disk s.
Proof.
  intros Hinputs. revert s.
  induction Hinputs as [|[line now] rest [Hexit Hsave] _ IH]; intros s; simpl; [done |].
  pose proof (handle_keeps_disk line now (print prompt s) Hexit Hsave) as Hdisk.
  destruct (handle _ _ _ _ _ _) as [[| |e|] s']; simpl in *; [by rewrite IH | done..].
Qed.

(** An iteration on a session without a log, when the line is [history],
    [save] or blank. *)
Lemma handle_idle (line now : string) (s : session) :
  log s = None →
  is_command "history" line ∨ is_command "save" line ∨ strip line = "" →
  handle generate content session_id line now s
  = (Running,
     if bool_decide (strip line = "")
     then print "Please ask a book-related question!: " s else s).
Proof.
  unfold is_command, handle. intros Hlog Hline. rewrite Hlog. simpl.
  destruct Hline as [Hline | [Hline | Hline]]; rewrite ?Hline; simpl.
  - rewrite bool_decide_eq_false_2; [done |]. by intros Hempty; rewrite Hempty in Hline.
  - rewrite bool_decide_eq_false_2; [done |]. by intros Hempty; rewrite Hempty in Hline.
  - done.
Qed.

(** An iteration on a session without a log, when the service is down. *)
Lemma handle_service_down (line now : string) (s : session) :
  (∀ history user_input, ∃ description, generate history user_input = Fault description) →
  log s = None →
  ((handle generate content session_id line now s).1 = Running
   ∨ (handle generate content session_id line now s).1 = Exited)
  ∧ log (handle generate content session_id line now s).2 = None
  ∧ disk (handle generate content session_id line now s).2 = disk s.
Proof.
  intros Hdown Hlog. unfold handle. rewrite Hlog. simpl.
  repeat case_bool_decide; simpl; try by auto.
  unfold gemini_api_query, send_message.
  by destruct (Hdown (start_history (strip line) None) (strip line)) as [description ->];
    auto.
Qed.

Lemma handle_question (line now : string) (s : session) :
  is_question line →
  handle generate content session_id line now s
  = (Running,
     print (nl +:+ "BookGuide: "
            +:+ (gemini_api_query generate content (strip line) (log s)).1)
       (set_log (gemini_api_query generate content (strip line) (log s)).2 s)).
Proof.
  unfold is_question, is_command, handle. intros (Hempty & Hexit & Hhistory & Hsave).
  rewrite !bool_decide_eq_false_2 by done.
  by destruct (gemini_api_query _ _ _ _).
Qed.

Lemma user_parts_object (pre rest : list message) (exchanges : list (string * string))
    (has_role : bool) (text : string) :
  Forall2 (λ msg e, is_exchange msg e.1 e.2) pre exchanges →
  user_parts (pre ++ MObj has_role text :: rest) = Raise TypeError.
Proof.
  induction 1 as [|msg [role body] pre exchanges (d & -> & Hrole & Hparts) _ IH];
    [done |].
  simpl in Hrole, Hparts |- *. unfold dict_getitem. rewrite Hrole. simpl.
  destruct (bool_decide (role = "user")); [| done].
  by rewrite Hparts, IH.
Qed.

Lemma seed_tolerated (topic : string) : Forall tolerated (seed topic).
Proof.
  unfold seed, get_few_shot_examples.
  repeat constructor; eexists _, _; by rewrite turn_role, turn_parts.
Qed.

Lemma handle_history_crash (line now : string) (s : session)
    (pre rest : list message) (exchanges : list (string * string))
    (has_role : bool) (text : string) :
  is_command "history" line →
  log s = Some (pre ++ MObj has_role text :: rest) →
  Forall2 (λ msg e, is_exchange msg e.1 e.2) pre exchanges →
  handle generate content session_id line now s = (Crashed TypeError, s).
Proof.
  unfold is_command, handle. intros -> -> Hpre. simpl.
  unfold summarize_conversation.
  rewrite (user_parts_object pre rest exchanges has_role text Hpre).
  by destruct pre.
Qed.

Lemma handle_save_ok (line now : string) (s : session) (msg : message)
    (rest : list message) (f' : file) :
  is_command "save" line →
  log s = Some (msg :: rest) →
  save_conversation session_id (msg :: rest) now (disk s) = (Ok (), f') →
  handle generate content session_id line now s
  = (Running, print (nl +:+ "Conversation saved!") (set_disk f' s)).
Proof.
  unfold is_command, handle. intros -> -> Hsave. simpl. by rewrite Hsave.
Qed.

End DriverFacts.

(** X17. Whitespace typed around a line is ignored, whichever of the
    characters that Python takes for whitespace it is made of (a
    no-break space as much as a space): the iteration does the same as on
    the line without it (commands are recognized, and a question is sent
    without the padding). *)
Theorem handle_ignores_padding (generate : list message → string → outcome)
    (content : string → string → message) (session_id : string)
    (before line after now : string) (s : session) :
  blank before = true → blank after = true →
  handle generate content session_id (before +:+ line +:+ after) now s
  = handle generate content session_id line now s.
Proof.
  intros Hbefore Hafter. unfold handle. by rewrite strip_padding.
Qed.

Lemma handle_ignores_padding_witness :
  handle canned content_object sample_session
    ((nbsp +:+ " ") +:+ "Save" +:+ (" " +:+ nbsp)) "t"
    {| log := Some sample_history; disk := Missing; screen := [] |}
  = handle canned content_object sample_session "Save" "t"
      {| log := Some sample_history; disk := Missing; screen := [] |}.
Proof.
  apply (handle_ignores_padding canned content_object sample_session
           (nbsp +:+ " ") "Save" (" " +:+ nbsp)); reflexivity.
Defined.

(** X18. The transcript file is written by the [save] and [exit] commands
    only: a run in which neither is typed leaves the file as it was,
    whatever else is typed and whatever the service answers. *)
Theorem store_written_only_on_save_or_exit (generate : list message → string → outcome)
    (content : string → string → message) (session_id : string)
    (inputs : list (string * string)) (f : file) :
  Forall (λ input, ¬ is_command "exit" input.1 ∧ ¬ is_command "save" input.1) inputs →
  disk (main generate content session_id inputs f).2 = f.
Proof.
  intros Hinputs. unfold main. by rewrite loop_keeps_disk.
Qed.

Lemma store_written_only_on_save_or_exit_witness :
  disk (main canned content_object sample_session
          [("Can you recommend a mystery?", "t1"); ("history", "t2"); ("", "t3")]
          (Document (PDict sample_store))).2
  = Document (PDict sample_store).
Proof.
  apply (store_written_only_on_save_or_exit canned content_object sample_session).
  repeat constructor; vm_compute; discriminate.
Defined.

(** X19. Before any question has been answered, [history] and [save] do
    nothing and a blank line only gets the reminder: a run made of such
    lines ends with no log, the file untouched, and on the terminal the
    welcome lines, then for each line the prompt (and the reminder after a
    blank line), then the prompt at which the input ended. *)
Theorem idle_commands_do_nothing (generate : list message → string → outcome)
    (content : string → string → message) (session_id : string)
    (inputs : list (string * string)) (f : file) :
  Forall (λ input, is_command "history" input.1 ∨ is_command "save" input.1
                   ∨ strip input.1 = "") inputs →
  main generate content session_id inputs f
  = (EndOfInput,
     {| log := None; disk := f;
        screen := welcome
                  ++ flat_map (λ input, if bool_decide (strip input.1 = "")
                                        then [prompt; "Please ask a book-related question!: "]
                                        else [prompt]) inputs
                  ++ [prompt] |}).
Proof.
  intros Hinputs. unfold main. generalize welcome as shown.
  induction Hinputs as [|[line now] rest Hline _ IH]; intros shown; [done |].
  cbn [loop flat_map]. simpl in Hline.
  rewrite (handle_idle generate content session_id line now
             (print prompt {| log := None; disk := f; screen := shown |}) eq_refl Hline).
  cbn [fst]. case_bool_decide; unfold print; cbn [log disk screen]; rewrite IH;
    by rewrite <- !app_assoc.
Qed.

Lemma idle_commands_do_nothing_witness :
  main canned content_object sample_session
    [(" History ", "t1"); ("", "t2"); ("SAVE", "t3")] Corrupt
  = (EndOfInput,
     {| log := None; disk := Corrupt;
        screen := welcome
                  ++ [ prompt; prompt; "Please ask a book-related question!: "; prompt ]
                  ++ [prompt] |}).
Proof.
  apply (idle_commands_do_nothing canned content_object sample_session
           [(" History ", "t1"); ("", "t2"); ("SAVE", "t3")] Corrupt).
  apply Forall_cons; split; [left; reflexivity |].
  apply Forall_cons; split; [right; right; reflexivity |].
  apply Forall_cons; split; [right; left; reflexivity | apply Forall_nil_2].
Defined.


(** X21. Nothing that is typed after [exit] is read: the run is the same
    as if the input had ended with that line. *)
Theorem lines_after_exit_are_ignored (generate : list message → string → outcome)
    (content : string → string → message) (session_id : string)
    (before after : list (string * string)) (line now : string) (f : file) :
  is_command "exit" line →
  main generate content session_id (before ++ (line, now) :: after) f
  = main generate content session_id (before ++ [(line, now)]) f.
Proof.
  intros Hexit. unfold main. generalize {| log := None; disk := f; screen := welcome |}.
  induction before as [|[line' now'] before IH]; intros s; simpl.
  - pose proof (handle_exit_stops generate content session_id line now
                  (print prompt s) Hexit) as Hstop.
    by destruct (handle _ _ _ _ _ _) as [[| |e|] s'].
  - destruct (handle _ _ _ _ _ _) as [[| |e|] s']; [apply IH | done..].
Qed.

Lemma lines_after_exit_are_ignored_witness :
  main canned content_object sample_session
    ([("Can you recommend a mystery?", "t1")] ++ ("exit", "t2") :: [("save", "t3")])
    Missing
  = main canned content_object sample_session
      ([("Can you recommend a mystery?", "t1")] ++ [("exit", "t2")]) Missing.
Proof.
  apply (lines_after_exit_are_ignored canned content_object sample_session
           [("Can you recommend a mystery?", "t1")] [("save", "t3")] "exit" "t2" Missing).
  reflexivity.
Defined.

(** X22. While the service is down, the program neither crashes nor
    touches the transcript file, and no log builds up: every run ends at
    [exit] or at the end of the input, with the file as it was. *)
Theorem service_down_is_harmless (generate : list message → string → outcome)
    (content : string → string → message) (session_id : string)
    (inputs : list (string * string)) (f : file) :
  (∀ history user_input, ∃ description, generate history user_input = Fault description) →
  ((main generate content session_id inputs f).1 = EndOfInput
   ∨ (main generate content session_id inputs f).1 = Exited)
  ∧ log (main generate content session_id inputs f).2 = None
  ∧ disk (main generate content session_id inputs f).2 = f.
Proof.
  intros Hdown. unfold main.
  assert (∀ s, log s = None →
            ((loop generate content session_id inputs s).1 = EndOfInput
             ∨ (loop generate content session_id inputs s).1 = Exited)
            ∧ log (loop generate content session_id inputs s).2 = None
            ∧ disk (loop generate content session_id inputs s).2 = disk s) as Hloop.
  { induction inputs as [|[line now] rest IH]; intros s Hlog; simpl; [auto |].
    destruct (handle_service_down generate content session_id line now
                (print prompt s) Hdown Hlog) as (Hstatus & Hlog' & Hdisk).
    destruct (handle _ _ _ _ _ _) as [[| |e|] s']; simpl in *.
    - destruct (IH s' Hlog') as (? & ? & ->). auto.
    - auto.
    - by destruct Hstatus.
    - by destruct Hstatus. }
  by apply (Hloop {| log := None; disk := f; screen := welcome |}).
Qed.

Lemma service_down_is_harmless_witness :
  ((main offline content_object sample_session
      [("Can you recommend a mystery?", "t1"); ("save", "t2"); ("exit", "t3")]
      (Document (PDict sample_store))).1 = EndOfInput
   ∨ (main offline content_object sample_session
        [("Can you recommend a mystery?", "t1"); ("save", "t2"); ("exit", "t3")]
        (Document (PDict sample_store))).1 = Exited)
  ∧ log (main offline content_object sample_session
           [("Can you recommend a mystery?", "t1"); ("save", "t2"); ("exit", "t3")]
           (Document (PDict sample_store))).2 = None
  ∧ disk (main offline content_object sample_session
            [("Can you recommend a mystery?", "t1"); ("save", "t2"); ("exit", "t3")]
            (Document (PDict sample_store))).2 = Document (PDict sample_store).
Proof.
  apply (service_down_is_harmless offline content_object sample_session).
  intros history user_input. by exists "503 Service Unavailable".
Defined.

(** X23. With a client library that records turns as objects (not
    dictionaries), the [history] command typed after an answered question
    ends the program with an uncaught [TypeError]. *)
Theorem history_command_crashes_on_objects (generate : list message → string → outcome)
    (content : string → string → message) (session_id : string)
    (question text line now now' : string) (f : file) :
  (∀ role turn_text, ∃ has_role repr, content role turn_text = MObj has_role repr) →
  is_question question →
  generate (seed (classify_topic (strip question))) (strip question) = Reply text →
  is_command "history" line →
  (main generate content session_id [(question, now); (line, now')] f).1
  = Crashed TypeError.
Proof.
  intros Hcontent Hquestion Hreply Hhistory. unfold main. cbn [loop].
  rewrite (handle_question generate content session_id question now _ Hquestion).
  cbn [print set_log log disk screen].
  rewrite (gemini_api_query_reply generate content (strip question) None text Hreply).
  change (start_history (strip question) None)
    with (seed (classify_topic (strip question))).
  cbn [fst snd].
  destruct (Hcontent "user" (strip question)) as (has_role & repr & ->).
  destruct (seed_exchanges (classify_topic (strip question))) as (persona & answer & Hseed).
  match goal with
  | |- context [handle _ _ _ line now' ?s] =>
      by rewrite (handle_history_crash generate content session_id line now' s
                    (seed (classify_topic (strip question))) [content "model" text] _
                    has_role repr Hhistory eq_refl Hseed)
  end.
Qed.

Lemma history_command_crashes_on_objects_witness :
  (main canned content_object sample_session
     [("Can you recommend a mystery?", "t1"); ("history", "t2")] Missing).1
  = Crashed TypeError.
Proof.
  apply (history_command_crashes_on_objects canned content_object sample_session
           "Can you recommend a mystery?" "Try 'Gone Girl' by Gillian Flynn.").
  - intros role turn_text. by eexists _, _.
  - repeat split; vm_compute; discriminate.
  - reflexivity.
  - reflexivity.
Defined.

(** X24. With a client library that records turns as objects that have a
    role attribute, a [save] typed after an answered question stores six
    records under the session identifier: the four of the seed, with the
    roles of the seed, and then the user's own question and the reply,
    both with the role "model". *)
Theorem saved_question_has_role_model (generate : list message → string → outcome)
    (repr : string → string → string) (session_id : string)
    (question text line now now' : string) (f : file) (m : gmap string pyval) :
  holds_json f →
  load_conversation_history f = (Ok (PDict m), f) →
  is_question question →
  generate (seed (classify_topic (strip question))) (strip question) = Reply text →
  is_command "save" line →
  ∃ m' stored seeds d1 d2,
    disk (main generate (λ role turn_text, MObj true (repr role turn_text)) session_id
            [(question, now); (line, now')] f).2
    = Document (PDict m')
    ∧ m' !! session_id = Some (PDict stored)
    ∧ stored !! "timestamp" = Some (PStr now')
    ∧ stored !! "history" = Some (PList (seeds ++ [PDict d1; PDict d2]))
    ∧ length seeds = 4
    ∧ (∀ i msg, seed (classify_topic (strip question)) !! i = Some msg →
         ∃ d, seeds !! i = Some (PDict d) ∧ d !! "role" = exchange_role msg
              ∧ d !! "parts" = exchange_parts msg)
    ∧ d1 !! "role" = Some (PStr "model")
    ∧ d1 !! "parts" = Some (PStr (repr "user" (strip question)))
    ∧ d2 !! "role" = Some (PStr "model")
    ∧ d2 !! "parts" = Some (PStr (repr "model" text)).
Proof.
  intros Hjson Hload Hquestion Hreply Hsave.
  set (content := λ role turn_text : string, MObj true (repr role turn_text)).
  set (history := seed (classify_topic (strip question))
                  ++ [content "user" (strip question); content "model" text]).
  assert (Forall tolerated history) as Htol.
  { apply Forall_app. split; [apply seed_tolerated | by repeat constructor]. }
  destruct (save_conversation_run session_id history now' f m Hjson Hload Htol)
    as (records & H2 & Hrun & _).
  apply Forall2_app_inv_l in H2 as (seeds & news & Hseeds & Hnews & ->).
  apply Forall2_cons_inv_l in Hnews as (r1 & news1 & Hr1 & Hnews & ->).
  apply Forall2_cons_inv_l in Hnews as (r2 & news2 & Hr2 & Hnews & ->).
  apply Forall2_nil_inv_l in Hnews as ->.
  apply record_of_dict in Hr1 as (d1 & -> & Hrole1 & Hparts1 & _).
  apply record_of_dict in Hr2 as (d2 & -> & Hrole2 & Hparts2 & _).
  destruct (transcript_fields now' (seeds ++ [PDict d1; PDict d2]))
    as (stored & Hstored & Htime & Hhist & _).
  exists (<[session_id := PDict stored]> m), stored, seeds, d1, d2.
  split.
  { unfold main. cbn [loop].
    rewrite (handle_question generate content session_id question now _ Hquestion).
    cbn [print set_log log disk screen].
    rewrite (gemini_api_query_reply generate content (strip question) None text Hreply).
    change (start_history (strip question) None)
      with (seed (classify_topic (strip question))).
    cbn [fst snd]. fold history.
    assert (∃ msg rest, history = msg :: rest) as (msg & rest & Hcons)
      by (by eexists _, _).
    rewrite Hcons in Hrun |- *. rewrite <- Hstored.
    match goal with
    | |- context [handle _ _ _ line now' ?s] =>
        by rewrite (handle_save_ok generate content session_id line now' s msg rest _
                      Hsave eq_refl Hrun)
    end. }
  split; [apply lookup_insert_eq |].
  split; [exact Htime |]. split; [exact Hhist |].
  split; [symmetry; apply (Forall2_length _ _ _ Hseeds) |].
  split.
  { intros i msg Hmsg.
    destruct (records_fields _ _ Hseeds i msg Hmsg) as (d & Hd & Hrole & Hparts & _).
    by exists d. }
  done.
Qed.

Lemma saved_question_has_role_model_witness :
  ∃ m' stored seeds d1 d2,
    disk (main canned (λ role turn_text, MObj true (role +:+ ": " +:+ turn_text))
            sample_session [("Who wrote Dune?", "t1"); ("save", "t2")] Missing).2
    = Document (PDict m')
    ∧ m' !! sample_session = Some (PDict stored)
    ∧ stored !! "timestamp" = Some (PStr "t2")
    ∧ stored !! "history" = Some (PList (seeds ++ [PDict d1; PDict d2]))
    ∧ length seeds = 4
    ∧ (∀ i msg, seed (classify_topic (strip "Who wrote Dune?")) !! i = Some msg →
         ∃ d, seeds !! i = Some (PDict d) ∧ d !! "role" = exchange_role msg
              ∧ d !! "parts" = exchange_parts msg)
    ∧ d1 !! "role" = Some (PStr "model")
    ∧ d1 !! "parts" = Some (PStr ("user" +:+ ": " +:+ strip "Who wrote Dune?"))
    ∧ d2 !! "role" = Some (PStr "model")
    ∧ d2 !! "parts" = Some (PStr ("model" +:+ ": " +:+ "Try 'Gone Girl' by Gillian Flynn.")).
Proof.
  apply (saved_question_has_role_model canned (λ role turn_text, role +:+ ": " +:+ turn_text)
           sample_session "Who wrote Dune?" "Try 'Gone Girl' by Gillian Flynn." "save"
           "t1" "t2" Missing ∅).
  - exact I.
  - reflexivity.
  - repeat split; vm_compute; discriminate.
  - reflexivity.
  - reflexivity.
Defined.
